(** * auto-commit: the classification and description engine

    A shallow embedding of [scripts/auto_commit_from_diff.py] and the
    properties of its change parser, type and scope inference, intro
    synthesis and remote-result validation.

    Conventions of the embedding.
    - A Python [str] is a [string]: the sequence of the bytes of its UTF-8
      encoding.  [str.lower], [str.strip] and [str.splitlines] are modelled on
      the ASCII characters; bytes above 127 are carried unchanged, which is
      what Python does for text whose non-ASCII characters are uncased, are
      not white space and are not line boundaries (the CJK keywords of the
      tables below, for instance).  Indexing and slicing count bytes, which
      are the characters of ASCII text; substring search and the sorting of
      strings are the same on bytes and on characters.
    - A Python [int] is a [Z]; a [dict] with string keys is a [gmap string];
      a [set] of strings is a [gset string].
    - A Python exception is a value of [exn] carried by [result]; functions
      that cannot raise are plain functions.
    - [pathlib.Path] is the POSIX flavour. *)

From Stdlib Require Import ZArith Ascii.
From stdpp Require Import base strings list gmap sorting pretty.

Local Open Scope Z_scope.

(** ** Exceptions *)

Inductive exn : Type :=
  | IndexError
  | KeyError (key : string)
  | AttributeError
  | RuntimeError (msg : string).

Inductive result (A : Type) : Type :=
  | Return (a : A)
  | Raise (e : exn).
Arguments Return {A} a.
Arguments Raise {A} e.

Global Instance result_bind : MBind result := fun A B k r =>
  match r with
  | Return a => k a
  | Raise e => Raise e
  end.

(** [for x in xs: acc = body(acc, x)], stopping at the first exception. *)
Fixpoint for_each {A S : Type} (body : S → A → result S) (xs : list A) (acc : S)
  : result S :=
  match xs with
  | [] => Return acc
  | x :: xs' => acc' ← body acc x; for_each body xs' acc'
  end.

(** ** The methods of [str] that the script uses *)

Module Str.

Definition code (c : ascii) : N := N_of_ascii c.

Definition between (lo hi : N) (c : ascii) : bool :=
  ((lo <=? code c) && (code c <=? hi))%N.

Definition is_upper (c : ascii) : bool := between 65 90 c.
Definition is_lower (c : ascii) : bool := between 97 122 c.
Definition is_digit (c : ascii) : bool := between 48 57 c.

Definition lower_char (c : ascii) : ascii :=
  if is_upper c then ascii_of_N (code c + 32) else c.

(** [c.isspace()]: tab, LF, VT, FF, CR, the separators 28..31, space. *)
Definition is_space (c : ascii) : bool :=
  between 9 13 c || between 28 32 c.

(** A line boundary of [str.splitlines] other than the pair CR LF. *)
Definition is_linebreak (c : ascii) : bool :=
  between 10 13 c || between 28 30 c.

Fixpoint map_chars (f : ascii → ascii) (s : string) : string :=
  match s with
  | EmptyString => EmptyString
  | String c s' => String (f c) (map_chars f s')
  end.

Fixpoint all_chars (p : ascii → bool) (s : string) : bool :=
  match s with
  | EmptyString => true
  | String c s' => p c && all_chars p s'
  end.

Fixpoint mem_char (c : ascii) (cs : string) : bool :=
  match cs with
  | EmptyString => false
  | String d cs' => bool_decide (c = d) || mem_char c cs'
  end.

(** [s.lower()] *)
Definition lower (s : string) : string := map_chars lower_char s.

(** [s.replace(a, b)] for one-character [a] and [b]. *)
Definition replace_char (a b : ascii) (s : string) : string :=
  map_chars (fun c => if bool_decide (c = a) then b else c) s.

Fixpoint lstrip_by (p : ascii → bool) (s : string) : string :=
  match s with
  | EmptyString => EmptyString
  | String c s' => if p c then lstrip_by p s' else s
  end.

Fixpoint rstrip_by (p : ascii → bool) (s : string) : string :=
  match s with
  | EmptyString => EmptyString
  | String c s' =>
      match rstrip_by p s' with
      | EmptyString => if p c then EmptyString else String c EmptyString
      | r => String c r
      end
  end.

Definition strip_by (p : ascii → bool) (s : string) : string :=
  lstrip_by p (rstrip_by p s).

(** [s.strip()], [s.strip(chars)], [s.lstrip(chars)] *)
Definition strip (s : string) : string := strip_by is_space s.
Definition strip_chars (cs s : string) : string :=
  strip_by (fun c => mem_char c cs) s.
Definition lstrip_chars (cs s : string) : string :=
  lstrip_by (fun c => mem_char c cs) s.

(** [s.split(sep)] for a one-character separator: never the empty list. *)
Fixpoint split (sep : ascii) (s : string) : list string :=
  match s with
  | EmptyString => [EmptyString]
  | String c s' =>
      if bool_decide (c = sep) then EmptyString :: split sep s'
      else match split sep s' with
           | piece :: pieces => String c piece :: pieces
           | [] => [String c EmptyString]
           end
  end.

(** [s.splitlines()]: the lines without their terminators; CR LF is one
    terminator; no empty last line after a final terminator. *)
Fixpoint splitlines (s : string) : list string :=
  match s with
  | EmptyString => []
  | String c s' =>
      if is_linebreak c then
        match s' with
        | String d s'' =>
            if bool_decide (c = "013"%char) && bool_decide (d = "010"%char)
            then EmptyString :: splitlines s''
            else EmptyString :: splitlines s'
        | EmptyString => [EmptyString]
        end
      else match splitlines s' with
           | line :: lines => String c line :: lines
           | [] => [String c EmptyString]
           end
  end.

(** [s.startswith(pre)], [s.endswith(suf)], [sub in s] *)
Definition startswith (s pre : string) : bool := String.prefix pre s.
Definition endswith (s suf : string) : bool :=
  String.prefix (String.rev suf) (String.rev s).
Fixpoint contains (sub s : string) : bool :=
  String.prefix sub s ||
  match s with
  | EmptyString => false
  | String _ s' => contains sub s'
  end.

(** [sep.join(pieces)] *)
Definition join (sep : string) (pieces : list string) : string :=
  String.concat sep pieces.

(** [s.rfind(c)] for a character, [None] for -1; [s[i:]]. *)
Fixpoint rfind (c : ascii) (s : string) : option nat :=
  match s with
  | EmptyString => None
  | String d s' =>
      match rfind c s' with
      | Some i => Some (S i)
      | None => if bool_decide (d = c) then Some 0%nat else None
      end
  end.

Fixpoint drop (i : nat) (s : string) : string :=
  match i, s with
  | O, _ => s
  | S i', String _ s' => drop i' s'
  | S _, EmptyString => EmptyString
  end.

(** [s[0]]: raises on the empty string. *)
Definition first (s : string) : result string :=
  match s with
  | EmptyString => Raise IndexError
  | String c _ => Return (String c EmptyString)
  end.

(** [str(n)] for an [int]. *)
Definition of_int (n : Z) : string := pretty n.

(** Truth value of a string and [a or b]. *)
Definition truthy (s : string) : bool := negb (bool_decide (s = "")).
Definition or_else (a b : string) : string := if truthy a then a else b.

End Str.

(** [xs[i]] on a list. *)
Definition list_item {A : Type} (xs : list A) (i : nat) : result A :=
  match xs !! i with
  | Some x => Return x
  | None => Raise IndexError
  end.

(** [xs[:n]] on a list, for any integer [n]. *)
Definition slice_to {A : Type} (xs : list A) (n : Z) : list A :=
  if 0 <=? n then take (Z.to_nat n) xs
  else take (length xs - Z.to_nat (- n)) xs.

(** [d[key]] on a dict. *)
Definition dict_item {V : Type} (d : gmap string V) (key : string) : result V :=
  match d !! key with
  | Some v => Return v
  | None => Raise (KeyError key)
  end.

Definition LF : string := String "010" EmptyString.
Definition TAB : ascii := "009"%char.

(** ** Tables *)

Definition ALLOWED_TYPES : list string :=
  ["feat"; "fix"; "refactor"; "docs"; "style"; "test"; "chore"; "perf"; "ci";
   "build"; "revert"].

Definition DOC_EXTENSIONS : gset string := {[ ".md"; ".rst"; ".adoc"; ".txt" ]}.
Definition STYLE_EXTENSIONS : gset string :=
  {[ ".css"; ".scss"; ".sass"; ".less"; ".styl" ]}.
Definition DOC_BASENAMES : gset string :=
  {[ "readme.md"; "changelog.md"; "license"; "license.md" ]}.
Definition STYLE_CONFIG_BASENAMES : gset string :=
  {[ ".editorconfig"; ".prettierrc"; ".stylelintrc"; ".eslintrc"; ".eslintrc.js";
     ".eslintrc.cjs"; ".eslintrc.json" ]}.
Definition BUILD_BASENAMES : gset string :=
  {[ "makefile"; "dockerfile"; "docker-compose.yml"; "docker-compose.yaml";
     "package.json"; "pnpm-lock.yaml"; "yarn.lock"; "package-lock.json";
     "pom.xml"; "build.gradle"; "build.gradle.kts"; "gradle.properties";
     "pyproject.toml"; "requirements.txt" ]}.
Definition CI_PATH_HINTS : gset string :=
  {[ ".github/workflows/"; ".gitlab-ci.yml"; ".circleci/"; "azure-pipelines.yml";
     "azure-pipelines.yaml"; "jenkinsfile" ]}.
Definition ROOT_SCOPE_BASENAMES : gset string :=
  {[ ".gitignore"; ".gitattributes"; ".npmrc"; ".nvmrc"; "readme.md"; "license";
     "license.md" ]}.
Definition FIX_KEYWORDS : list string :=
  ["fix"; "bug"; "hotfix"; "crash"; "error"; "exception"; "null"; "patch";
   "修复"; "错误"; "异常"].
Definition REFACTOR_KEYWORDS : list string :=
  ["refactor"; "cleanup"; "restructure"; "rename"; "重构"; "整理"].
Definition PERF_KEYWORDS : list string :=
  ["perf"; "performance"; "optimiz"; "benchmark"; "性能"; "优化"].

(** ** Changes *)

Record Change : Type := mkChange {
  status : string;
  path : string;
  old_path : option string;
}.

(** ** Paths *)

Definition normalize_path (path : string) : string :=
  Str.strip (Str.replace_char "092" "/" path).

Definition split_path (path : string) : list string :=
  filter (fun part => Str.truthy part = true) (Str.split "/" (normalize_path path)).

(** [Path(path).name]: the last component, where empty components and
    the components ["."] do not count; [""] when there is none. *)
Definition path_name (path : string) : string :=
  default "" (last (filter (fun x => x ≠ "" ∧ x ≠ ".") (Str.split "/" path))).

(** [Path(path).suffix]: from the last dot of the name, when that dot is
    neither its first nor its last character. *)
Definition path_suffix (path : string) : string :=
  let name := path_name path in
  match Str.rfind "." name with
  | Some i =>
      if bool_decide (0 < i)%nat && bool_decide (i < String.length name - 1)%nat
      then Str.drop i name else ""
  | None => ""
  end.

Definition extension (path : string) : string := Str.lower (path_suffix path).

Definition basename (path : string) : string := Str.lower (path_name path).

(** ** Path classifier *)

Definition is_docs (path : string) : bool :=
  let p := Str.lower (normalize_path path) in
  let b := basename p in
  let parts := split_path p in
  bool_decide (extension p ∈ DOC_EXTENSIONS)
  || bool_decide (b ∈ DOC_BASENAMES)
  || bool_decide ("docs" ∈ parts)
  || bool_decide ("doc" ∈ parts)
  || bool_decide ("documentation" ∈ parts).

Definition TEST_DIRS : gset string :=
  {[ "test"; "tests"; "testing"; "__tests__"; "spec"; "specs"; "e2e" ]}.

Definition is_test (path : string) : bool :=
  let p := Str.lower (normalize_path path) in
  let b := basename p in
  let parts := split_path p in
  if existsb (fun part => bool_decide (part ∈ TEST_DIRS)) parts then true
  else
    Str.startswith b "test_"
    || Str.endswith b "_test.py"
    || Str.endswith b ".spec.ts"
    || Str.endswith b ".spec.tsx"
    || Str.endswith b ".spec.js"
    || Str.endswith b ".spec.jsx".

Definition CI_BASENAMES : gset string := {[ "jenkinsfile"; ".gitlab-ci.yml" ]}.

Definition is_ci (path : string) : bool :=
  let p := Str.lower (normalize_path path) in
  if existsb (fun hint => Str.startswith p hint) (elements CI_PATH_HINTS) then true
  else bool_decide (basename p ∈ CI_BASENAMES).

Definition is_build (path : string) : bool :=
  let p := Str.lower (normalize_path path) in
  let b := basename p in
  let parts := split_path p in
  if bool_decide (b ∈ BUILD_BASENAMES) then true
  else
    bool_decide ("build" ∈ parts)
    || Str.startswith b "vite.config"
    || Str.startswith b "webpack.config"
    || Str.startswith b "rollup.config".

Definition is_style (path : string) : bool :=
  let p := Str.lower (normalize_path path) in
  bool_decide (extension p ∈ STYLE_EXTENSIONS)
  || bool_decide (basename p ∈ STYLE_CONFIG_BASENAMES).

Definition is_perf (path : string) : bool :=
  let p := Str.lower (normalize_path path) in
  Str.contains "perf" p || Str.contains "benchmark" p.

Definition has_keyword (text : string) (keywords : list string) : bool :=
  let lowered := Str.lower text in
  existsb (fun keyword => Str.contains keyword lowered) keywords.

(** ** Content signal *)

(** One turn of the loop over the lines of the diff. *)
Definition extract_content_signal_step (content_lines : list string) (line : string)
  : list string :=
  if Str.startswith line "diff --git "
     || Str.startswith line "index "
     || Str.startswith line "@@ "
     || Str.startswith line "--- "
     || Str.startswith line "+++ "
  then content_lines
  else if Str.startswith line "+" || Str.startswith line "-"
  then content_lines ++ [Str.drop 1 line]
  else content_lines.

Definition extract_content_signal (diff_text : string) : string :=
  let content_lines :=
    fold_left extract_content_signal_step (Str.splitlines diff_text) [] in
  Str.lower (Str.join LF content_lines).

(** ** Change parser *)

(** One turn of the loop over the lines; [Return changes] without a new
    change is [continue] or the end of the body. *)
Definition parse_name_status_step (changes : list Change) (line : string)
  : result (list Change) :=
  if negb (Str.truthy (Str.strip line)) then Return changes
  else
    let parts := Str.split TAB line in
    parts0 ← list_item parts 0;
    let status_token := Str.strip parts0 in
    status ← Str.first status_token;
    if (bool_decide (status = "R") || bool_decide (status = "C"))
       && bool_decide (3 ≤ length parts)%nat
    then
      parts1 ← list_item parts 1;
      parts2 ← list_item parts 2;
      let old_path := normalize_path parts1 in
      let new_path := normalize_path parts2 in
      Return (changes ++ [mkChange status new_path (Some old_path)])
    else if bool_decide (2 ≤ length parts)%nat
    then
      parts1 ← list_item parts 1;
      let target_path := normalize_path parts1 in
      Return (changes ++ [mkChange status target_path None])
    else Return changes.

Definition parse_name_status (raw : string) : result (list Change) :=
  for_each parse_name_status_step (Str.splitlines raw) [].

(** ** Change counts *)

(** One turn of the loop.  [counts[key] += 1] is [alter]: the keys ["A"] and
    ["M"] are in [counts] from the start and no key is ever removed. *)
Definition count_changes_step (counts : gmap string Z) (change : Change)
  : gmap string Z :=
  let status := change.(status) in
  if bool_decide (is_Some (counts !! status))
  then alter (fun n => n + 1) status counts
  else if bool_decide (status = "C")
  then alter (fun n => n + 1) "A" counts
  else alter (fun n => n + 1) "M" counts.

Definition count_changes (changes : list Change) : gmap string Z :=
  fold_left count_changes_step changes
    (<["A" := 0]> (<["M" := 0]> (<["D" := 0]> (<["R" := 0]> ∅)))).

(** ** Type inference *)

Definition infer_type (paths : list string) (diff_text : string)
  (counts : gmap string Z) : result string :=
  if bool_decide (paths = []) then Return "chore"
  else if Str.contains "this reverts commit" (Str.lower diff_text) then Return "revert"
  else if forallb is_docs paths then Return "docs"
  else if forallb is_test paths then Return "test"
  else if forallb is_ci paths then Return "ci"
  else if forallb is_build paths then Return "build"
  else if forallb is_style paths then Return "style"
  else
    let joined_paths := Str.lower (Str.join " " paths) in
    let content_signal := extract_content_signal diff_text in
    let signal_text := joined_paths +:+ LF +:+ content_signal in
    if existsb is_perf paths || has_keyword signal_text PERF_KEYWORDS
    then Return "perf"
    else if has_keyword signal_text FIX_KEYWORDS then Return "fix"
    else if has_keyword signal_text REFACTOR_KEYWORDS then Return "refactor"
    else
      added ← dict_item counts "A";
      if 0 <? added then Return "feat" else Return "chore".

(** ** Scope sanitization *)

Definition is_scope_char (c : ascii) : bool :=
  Str.is_lower c || Str.is_upper c || Str.is_digit c || Str.mem_char c "._-".

(** [re.sub("[^...]+", repl, s)] for a character class: each maximal run of
    characters outside the class becomes one [repl]; [in_run] tells that the
    previous character was outside it. *)
Fixpoint re_sub_outside (in_class : ascii → bool) (repl : string) (in_run : bool)
  (s : string) : string :=
  match s with
  | EmptyString => EmptyString
  | String c s' =>
      if in_class c then String c (re_sub_outside in_class repl false s')
      else if in_run then re_sub_outside in_class repl true s'
      else repl +:+ re_sub_outside in_class repl true s'
  end.

Definition sanitize_scope (scope : string) : string :=
  let cleaned :=
    Str.lower (Str.strip_chars "-." (re_sub_outside is_scope_char "-" false scope)) in
  Str.or_else cleaned "repo".

(** ** Scope inference *)

(** One turn of the loop over the paths; the state is [(root_like, tops)].
    The first case of the [match] is [len(parts) > 1], with [parts[0]]. *)
Definition infer_scope_step (st : Z * list string) (path : string)
  : Z * list string :=
  let '(root_like, tops) := st in
  let normalized := normalize_path path in
  let parts := split_path normalized in
  match parts with
  | parts0 :: _ :: _ =>
      if bool_decide (basename normalized ∈ ROOT_SCOPE_BASENAMES)
      then (root_like + 1, tops)
      else
        let top := parts0 in
        let top :=
          if Str.startswith top "." && bool_decide (1 < length parts)%nat
          then Str.or_else (Str.lstrip_chars "." top) parts0
          else top in
        (root_like, tops ++ [top])
  | _ => (root_like + 1, tops)
  end.

(** [sorted(set(tops))] is the sorted list of the elements of the set; the
    three cases on its length are the three cases of the [match]. *)
Definition infer_scope (paths : list string) (commit_type : string) : string :=
  if bool_decide (paths = []) then "repo"
  else if bool_decide (commit_type = "ci") then "ci"
  else if bool_decide (commit_type = "docs") then "docs"
  else if bool_decide (commit_type = "build") then "build"
  else
    let '(root_like, tops) := fold_left infer_scope_step paths (0, []) in
    let unique := merge_sort (≤)%string (elements (list_to_set tops : gset string)) in
    match unique with
    | [unique0] => sanitize_scope unique0
    | _ :: _ :: _ => "multi"
    | [] => if 0 <? root_like then "repo" else "repo"
    end.

(** ** Theme and intro *)

Definition positive_count (counts : gmap string Z) (key : string) : result bool :=
  n ← dict_item counts key; Return (0 <? n).

Definition zero_count (counts : gmap string Z) (key : string) : result bool :=
  n ← dict_item counts key; Return (n =? 0).

(** [a and b], the right operand evaluated only when the left one holds. *)
Definition and_then (a b : result bool) : result bool :=
  x ← a; if x : bool then b else Return false.

Definition infer_theme (scope : string) (counts : gmap string Z)
  (commit_type : string) : result string :=
  if bool_decide (commit_type = "revert") then Return "回滚上一轮改动"
  else
    c1 ← and_then (positive_count counts "A")
           (and_then (zero_count counts "M")
              (and_then (zero_count counts "D") (zero_count counts "R")));
    if c1 : bool then Return ("新增" +:+ scope +:+ "相关内容")
    else
      c2 ← and_then (positive_count counts "D")
             (and_then (zero_count counts "A") (zero_count counts "M"));
      if c2 : bool then Return ("移除" +:+ scope +:+ "冗余内容")
      else
        c3 ← and_then (positive_count counts "R") (zero_count counts "A");
        if c3 : bool then Return ("整理" +:+ scope +:+ "文件结构")
        else
          c4 ← and_then (positive_count counts "M") (zero_count counts "A");
          if c4 : bool then Return ("完善" +:+ scope +:+ "相关实现")
          else Return ("同步" +:+ scope +:+ "相关改动").

Definition infer_intro (scope : string) (counts : gmap string Z)
  (paths : list string) (max_files : Z) : result string :=
  let total := Z.of_nat (length paths) in
  let preview := Str.join "，" (slice_to paths max_files) in
  let suffix :=
    if max_files <? total then " 等" +:+ Str.of_int total +:+ "个文件" else "" in
  a ← dict_item counts "A";
  m ← dict_item counts "M";
  d ← dict_item counts "D";
  r ← dict_item counts "R";
  Return ("对" +:+ Str.of_int total +:+ "个文件进行了变更（新增" +:+ Str.of_int a
          +:+ "、修改" +:+ Str.of_int m +:+ "、删除" +:+ Str.of_int d
          +:+ "、重命名" +:+ Str.of_int r +:+ "），" +:+ "主要集中在" +:+ scope
          +:+ "范围，涉及" +:+ preview +:+ suffix +:+ "。").

Definition build_body (commit_type scope theme intro : string) : string :=
  Str.join LF
    ["类型: " +:+ commit_type; "作用域: " +:+ scope; "主题: " +:+ theme;
     "简介: " +:+ intro].

(** ** Remote result *)

(** A decoded JSON document, as [json.loads] returns it. *)
#[warnings="-register-all"]
Inductive json : Type :=
  | JNull
  | JBool (b : bool)
  | JInt (n : Z)
  | JFloat (text : string)
  | JString (s : string)
  | JArray (items : list json)
  | JObject (fields : gmap string json).

(** [data.get(key, fallback)]: a method of dicts only. *)
Definition json_get (data : json) (key : string) (fallback : json) : result json :=
  match data with
  | JObject fields => Return (default fallback (fields !! key))
  | _ => Raise AttributeError
  end.

(** The four fields of a commit description: type, scope, theme, intro. *)
Abbreviation Description := (string * string * string * string)%type.

Section Remote.

(** The two library functions of the validation: [json.loads], which gives
    the decoded document or the text of its [JSONDecodeError], and the
    built-in [str] on decoded documents. *)
Variable json_loads : string → string + json.
Variable py_str : json → string.

Definition normalize_ai_result (raw_json : string) : result Description :=
  match json_loads raw_json with
  | inl exc => Raise (RuntimeError ("AI returned non-JSON content: " +:+ exc))
  | inr data =>
      type_field ← json_get data "type" (JString "");
      let commit_type := Str.lower (Str.strip (py_str type_field)) in
      scope_field ← json_get data "scope" (JString "");
      let scope :=
        sanitize_scope (Str.or_else (Str.strip (py_str scope_field)) "repo") in
      theme_field ← json_get data "theme" (JString "");
      let theme := Str.strip (py_str theme_field) in
      intro_field ← json_get data "intro" (JString "");
      let intro := Str.strip (py_str intro_field) in
      if negb (bool_decide (commit_type ∈ ALLOWED_TYPES))
      then Raise (RuntimeError ("AI returned invalid type: " +:+ commit_type))
      else if negb (Str.truthy theme)
      then Raise (RuntimeError "AI returned empty theme")
      else if negb (Str.truthy intro)
      then Raise (RuntimeError "AI returned empty intro")
      else Return (commit_type, scope, theme, intro)
  end.

(** *** The description stage of [run] *)

Record Args : Type := mkArgs {
  type_override : option string;
  scope_override : option string;
  theme_override : option string;
  intro_override : option string;
  max_files : Z;
  no_ai : bool;
  ai_required : bool;
}.

(** Truth value of an option of the command line: absent or empty is false. *)
Definition given (o : option string) : bool :=
  match o with
  | Some s => Str.truthy s
  | None => false
  end.

Inductive outcome : Type :=
  | Exit (code : Z)
  | Described (commit_type scope theme intro : string) (ai_used : bool)
  | Uncaught (e : exn).

(** [override or computed], the right operand evaluated only when the
    override is absent or empty. *)
Definition override_or (o : option string) (computed : result string)
  : result string :=
  match o with
  | Some s => if Str.truthy s then Return s else computed
  | None => computed
  end.

(** The four local fields, lines 514 to 517. *)
Definition local_description (args : Args) (paths : list string)
  (diff_text : string) (counts : gmap string Z) : result Description :=
  local_type ← override_or args.(type_override) (infer_type paths diff_text counts);
  let local_scope :=
    match args.(scope_override) with
    | Some s => if Str.truthy s then sanitize_scope s
                else infer_scope paths local_type
    | None => infer_scope paths local_type
    end in
  local_theme ←
    override_or args.(theme_override) (infer_theme local_scope counts local_type);
  local_intro ←
    override_or args.(intro_override)
      (infer_intro local_scope counts paths args.(max_files));
  Return (local_type, local_scope, local_theme, local_intro).

(** The last gate before the header is built, lines 535 and 536. *)
Definition clamp_type (commit_type : string) : string :=
  if negb (bool_decide (commit_type ∈ ALLOWED_TYPES)) then "chore" else commit_type.

(** [run] from the check of [--max-files] to the description that is
    printed and committed.  The collaborators are inputs: [staged_changes]
    is what [load_staged_changes] returned, [diff_text] the staged diff,
    and [ai_reply] what [request_deepseek] does when it is called.  Only
    [RuntimeError] is caught, by the inner handler around the remote call
    and by the outer one. *)
Definition run (args : Args) (staged_changes : list Change) (diff_text : string)
  (ai_reply : result string) : outcome :=
  if args.(max_files) <? 1 then Exit 2
  else if bool_decide (staged_changes = []) then Exit 1
  else
    let paths := map path staged_changes in
    let counts := count_changes staged_changes in
    match local_description args paths diff_text counts with
    | Raise (RuntimeError _) => Exit 2
    | Raise e => Uncaught e
    | Return (local_type, local_scope, local_theme, local_intro) =>
        let can_try_ai :=
          negb args.(no_ai)
          && negb (given args.(type_override) || given args.(scope_override)
                   || given args.(theme_override) || given args.(intro_override)) in
        if can_try_ai then
          match ai_raw ← ai_reply; normalize_ai_result ai_raw with
          | Return (commit_type, scope, theme, intro) =>
              Described (clamp_type commit_type) scope theme intro true
          | Raise (RuntimeError _) =>
              if args.(ai_required) then Exit 2
              else Described (clamp_type local_type) local_scope local_theme
                     local_intro false
          | Raise e => Uncaught e
          end
        else Described (clamp_type local_type) local_scope local_theme
               local_intro false
    end.

End Remote.

(** ** Vocabulary of the statements *)

(** The characters of a sanitized scope, and the ones [strip("-.")] removes. *)
Definition is_clean_scope_char (c : ascii) : bool :=
  Str.is_lower c || Str.is_digit c || Str.mem_char c "._-".

Definition is_edge_char (c : ascii) : bool := Str.mem_char c "-.".

(** A scope that sanitization has nothing left to do on. *)
Definition sanitized (scope : string) : Prop :=
  scope ≠ ""
  ∧ Str.all_chars is_clean_scope_char scope = true
  ∧ Str.lstrip_by is_edge_char scope = scope
  ∧ Str.rstrip_by is_edge_char scope = scope.

(** The last character of a string. *)
Fixpoint last_char (s : string) : option ascii :=
  match s with
  | EmptyString => None
  | String c s' =>
      match last_char s' with
      | None => Some c
      | Some d => Some d
      end
  end.

(** [n] dots in a row. *)
Fixpoint dots (n : nat) : string :=
  match n with
  | O => EmptyString
  | S n' => String "." (dots n')
  end.

(** The topic that one turn of the loop of [infer_scope] appends to [tops];
    [None] when the turn counts the path as root-like. *)
Definition path_topic (path : string) : option string :=
  match snd (infer_scope_step (0, []) path) with
  | topic :: _ => Some topic
  | [] => None
  end.

(** The reading of the topic rule that removes one leading dot only. *)
Definition strip_single_dot (segment : string) : string :=
  match segment with
  | String "."%char rest => if bool_decide (rest = "") then segment else rest
  | _ => segment
  end.

(** The bucket that [count_changes] increments for a status. *)
Definition bucket_of (status : string) : string :=
  if bool_decide (status ∈ ["A"; "M"; "D"; "R"]) then status
  else if bool_decide (status = "C") then "A"
  else "M".

(** How many changes of a list satisfy a property. *)
Definition tally (P : Change → Prop) `{∀ change, Decision (P change)}
  (changes : list Change) : Z :=
  Z.of_nat (length (filter P changes)).

(** A [dict] with the four buckets of the change counts. *)
Definition has_buckets (counts : gmap string Z) : Prop :=
  ∀ key, is_Some (counts !! key) ↔ key ∈ ["A"; "M"; "D"; "R"].

(** The five all-of rules of [infer_type] in the order of the decision
    list: the predicate on one path and the type it stands for. *)
Definition category_rules : list ((string → bool) * string) :=
  [(is_docs, "docs"); (is_test, "test"); (is_ci, "ci"); (is_build, "build");
   (is_style, "style")].

(** The first category, in that order, that every path belongs to. *)
Definition first_category (paths : list string) : option string :=
  snd <$> find (fun rule => forallb (fst rule) paths) category_rules.

(** The part of the intro before the list of paths. *)
Definition intro_lead (total a m d r : Z) (scope : string) : string :=
  "对" +:+ Str.of_int total +:+ "个文件进行了变更（新增" +:+ Str.of_int a
  +:+ "、修改" +:+ Str.of_int m +:+ "、删除" +:+ Str.of_int d
  +:+ "、重命名" +:+ Str.of_int r +:+ "），" +:+ "主要集中在" +:+ scope
  +:+ "范围，涉及".

(** A staged diff whose only occurrence of the revert phrase is on a context
    line, one that begins with a space. *)
Definition context_line_diff : string :=
  "@@ -1,3 +1,3 @@" +:+ LF +:+ " This reverts commit 1a2b3c4." +:+ LF
  +:+ "-old wording" +:+ LF +:+ "+new wording".

(** The status token of a line of [git diff --name-status]: its first
    field, stripped. *)
Definition status_token (line : string) : string :=
  Str.strip (default "" (head (Str.split TAB line))).

(** The options of a plain invocation: no override, five files listed,
    remote generation allowed and not required. *)
Definition default_args : Args :=
  mkArgs None None None None 5 false false.

(** A decoder and a [str] for the sample replies of this file: the reply
    ["[1]"] is the JSON array of the number one, and scalars print as Python
    prints them (the text of an array or an object plays no role below). *)
Definition sample_loads (raw : string) : string + json :=
  if bool_decide (raw = "[1]") then inr (JArray [JInt 1])
  else inl "Expecting value: line 1 column 1 (char 0)".

Definition sample_str (value : json) : string :=
  match value with
  | JNull => "None"
  | JBool true => "True"
  | JBool false => "False"
  | JInt n => Str.of_int n
  | JFloat text => text
  | JString s => s
  | JArray _ | JObject _ => ""
  end.

(** One step of [normalize_path] on a character: the backslash becomes a
    slash. *)
Definition slash_char (c : ascii) : ascii :=
  if bool_decide (c = "092"%char) then "/"%char else c.

(** The six predicates on one path. *)
Definition path_predicates : list (string → bool) :=
  [is_docs; is_test; is_ci; is_build; is_style; is_perf].

(** The shape of a sanitized scope, in the words of [str]: not empty, made
    of a-z, 0-9, dot, underscore and hyphen, with no hyphen and no dot at
    either end. *)
Definition scope_shape (scope : string) : Prop :=
  scope ≠ ""
  ∧ Str.all_chars is_clean_scope_char scope = true
  ∧ Str.startswith scope "-" = false ∧ Str.startswith scope "." = false
  ∧ Str.endswith scope "-" = false ∧ Str.endswith scope "." = false.



(** A character that is no line boundary of [str.splitlines]. *)
Definition not_linebreak (c : ascii) : bool := negb (Str.is_linebreak c).

(** A JSON text in double quotes. *)
Definition quoted (s : string) : string :=
  String "034" (s +:+ String "034" EmptyString).

(** A reply that is a JSON object with the four fields, and a decoder that
    knows this reply. *)
Definition sample_object_reply : string :=
  "{" +:+ quoted "type" +:+ ": " +:+ quoted " Fix "
  +:+ ", " +:+ quoted "scope" +:+ ": " +:+ quoted "API v2"
  +:+ ", " +:+ quoted "theme" +:+ ": " +:+ quoted "guard the handler"
  +:+ ", " +:+ quoted "intro" +:+ ": " +:+ quoted "adds a null check " +:+ "}".

Definition sample_object_fields : gmap string json :=
  <["type" := JString " Fix "]>
    (<["scope" := JString "API v2"]>
       (<["theme" := JString "guard the handler"]>
          (<["intro" := JString "adds a null check "]> ∅))).

Definition sample_object_loads (raw : string) : string + json :=
  if bool_decide (raw = sample_object_reply) then inr (JObject sample_object_fields)
  else inl "Expecting value: line 1 column 1 (char 0)".

(** * Facts about characters and strings *)

(** Membership in a list that is written out. *)
Ltac in_list :=
  repeat first [apply list_elem_of_here | apply list_elem_of_further].

Section CharFacts.

Local Ltac by_cases c := destruct c as [[] [] [] [] [] [] [] []]; vm_compute; congruence.


Lemma lower_char_scope c :
  is_scope_char c = true → is_clean_scope_char (Str.lower_char c) = true.
Proof. by_cases c. Qed.

Lemma clean_char_is_scope_char c :
  is_clean_scope_char c = true → is_scope_char c = true.
Proof. by_cases c. Qed.

Lemma clean_char_lower c : is_clean_scope_char c = true → Str.lower_char c = c.
Proof. by_cases c. Qed.

Lemma edge_char_lower c : is_edge_char (Str.lower_char c) = is_edge_char c.
Proof. by_cases c. Qed.


End CharFacts.

Section StringFacts.

Implicit Types (s t : string) (p q : ascii → bool) (f : ascii → ascii).

Lemma str_app_cons c s t : String c s +:+ t = String c (s +:+ t).
Proof. reflexivity. Qed.

Lemma str_app_nil_l s : "" +:+ s = s.
Proof. reflexivity. Qed.


Lemma str_app_assoc s t u : (s +:+ t) +:+ u = s +:+ t +:+ u.
Proof. induction s as [|c s IH]; [done | by rewrite !str_app_cons, IH]. Qed.

Lemma all_chars_app p s t :
  Str.all_chars p (s +:+ t) = Str.all_chars p s && Str.all_chars p t.
Proof.
  induction s as [|c s IH]; [done|].
  rewrite str_app_cons. simpl. by rewrite IH, andb_assoc.
Qed.

Lemma all_chars_impl p q s :
  (∀ c, p c = true → q c = true) →
  Str.all_chars p s = true → Str.all_chars q s = true.
Proof.
  intros Hpq. induction s as [|c s IH]; simpl; [done|].
  intros [Hc Hs]%andb_prop. rewrite (Hpq _ Hc). simpl. auto.
Qed.

Lemma all_chars_map p q f s :
  (∀ c, p c = true → q (f c) = true) →
  Str.all_chars p s = true → Str.all_chars q (Str.map_chars f s) = true.
Proof.
  intros Hpq. induction s as [|c s IH]; simpl; [done|].
  intros [Hc Hs]%andb_prop. rewrite (Hpq _ Hc). simpl. auto.
Qed.

Lemma map_chars_id p f s :
  (∀ c, p c = true → f c = c) →
  Str.all_chars p s = true → Str.map_chars f s = s.
Proof.
  intros Hf. induction s as [|c s IH]; simpl; [done|].
  intros [Hc Hs]%andb_prop. by rewrite (Hf _ Hc), IH.
Qed.

Lemma map_chars_app f s t :
  Str.map_chars f (s +:+ t) = Str.map_chars f s +:+ Str.map_chars f t.
Proof.
  induction s as [|c s IH]; [done|]. rewrite str_app_cons. simpl. by rewrite IH.
Qed.

Lemma startswith_char c d s :
  Str.startswith (String d s) (String c "") = bool_decide (c = d).
Proof.
  unfold Str.startswith. cbn [String.prefix].
  destruct (ascii_dec c d); case_bool_decide; try done. by destruct s.
Qed.

(** *** The substitution of runs *)

Lemma re_sub_outside_in_class p repl b s :
  Str.all_chars p repl = true →
  Str.all_chars p (re_sub_outside p repl b s) = true.
Proof.
  intros Hrepl. revert b. induction s as [|c s IH]; intros b; simpl; [done|].
  destruct (p c) eqn:Hc; simpl.
  - by rewrite Hc, IH.
  - destruct b; [apply IH|]. by rewrite all_chars_app, Hrepl, IH.
Qed.

Lemma re_sub_outside_id p repl b s :
  Str.all_chars p s = true → re_sub_outside p repl b s = s.
Proof.
  revert b. induction s as [|c s IH]; intros b; simpl; [done|].
  intros [Hc Hs]%andb_prop. by rewrite Hc, IH.
Qed.

(** *** Stripping *)

Lemma lstrip_by_all_chars p q s :
  Str.all_chars q s = true → Str.all_chars q (Str.lstrip_by p s) = true.
Proof.
  induction s as [|c s IH]; simpl; [done|].
  intros H. destruct (p c); [|done].
  apply andb_prop in H as [_ Hs]. auto.
Qed.

Lemma rstrip_by_all_chars p q s :
  Str.all_chars q s = true → Str.all_chars q (Str.rstrip_by p s) = true.
Proof.
  induction s as [|c s IH]; simpl; [done|].
  intros [Hc Hs]%andb_prop. specialize (IH Hs).
  destruct (Str.rstrip_by p s) as [|a r].
  - destruct (p c); simpl; [done | by rewrite Hc].
  - change (q c && Str.all_chars q (String a r) = true). by rewrite Hc, IH.
Qed.

Lemma lstrip_by_idem p s :
  Str.lstrip_by p (Str.lstrip_by p s) = Str.lstrip_by p s.
Proof.
  induction s as [|c s IH]; simpl; [done|].
  destruct (p c) eqn:Hc; [done|]. simpl. by rewrite Hc.
Qed.

Lemma rstrip_by_idem p s :
  Str.rstrip_by p (Str.rstrip_by p s) = Str.rstrip_by p s.
Proof.
  induction s as [|c s IH]; simpl; [done|].
  destruct (Str.rstrip_by p s) as [|a r] eqn:Hr.
  - destruct (p c) eqn:Hc; simpl; [done | by rewrite Hc].
  - change (Str.rstrip_by p (String c (String a r)))
      with (match Str.rstrip_by p (String a r) with
            | EmptyString => if p c then EmptyString else String c EmptyString
            | r' => String c r'
            end).
    by rewrite IH.
Qed.

Lemma rstrip_by_cons_fixed p c s :
  Str.rstrip_by p (String c s) = String c s →
  s ≠ "" → Str.rstrip_by p s = s.
Proof.
  simpl. destruct (Str.rstrip_by p s) as [|a r].
  - destruct (p c); [done|]. intros [= <-]. done.
  - by intros [= <-].
Qed.

Lemma rstrip_by_lstrip_by p s :
  Str.rstrip_by p s = s →
  Str.rstrip_by p (Str.lstrip_by p s) = Str.lstrip_by p s.
Proof.
  induction s as [|c s IH]; [done|].
  intros H. cbn [Str.lstrip_by]. destruct (p c) eqn:Hc; [|done].
  destruct s as [|a s]; [done|].
  apply IH. by eapply rstrip_by_cons_fixed.
Qed.

Lemma lstrip_by_map p f s :
  (∀ c, p (f c) = p c) →
  Str.lstrip_by p (Str.map_chars f s) = Str.map_chars f (Str.lstrip_by p s).
Proof.
  intros Hf. induction s as [|c s IH]; simpl; [done|].
  rewrite Hf. by destruct (p c).
Qed.

Lemma rstrip_by_map p f s :
  (∀ c, p (f c) = p c) →
  Str.rstrip_by p (Str.map_chars f s) = Str.map_chars f (Str.rstrip_by p s).
Proof.
  intros Hf. induction s as [|c s IH]; simpl; [done|].
  rewrite IH, Hf. destruct (Str.rstrip_by p s); simpl; [by destruct (p c)|done].
Qed.

Lemma strip_by_fixed p s :
  Str.lstrip_by p (Str.strip_by p s) = Str.strip_by p s
  ∧ Str.rstrip_by p (Str.strip_by p s) = Str.strip_by p s.
Proof.
  unfold Str.strip_by. split; [apply lstrip_by_idem|].
  apply rstrip_by_lstrip_by, rstrip_by_idem.
Qed.

End StringFacts.

(** * Scope sanitization *)

Section SanitizeFacts.

Implicit Types (s : string) (p : ascii → bool).

Lemma last_char_cons c s : s ≠ "" → last_char (String c s) = last_char s.
Proof. destruct s as [|a s]; [done|]. intros _. simpl. by destruct (last_char s). Qed.

Lemma rstrip_by_fixed_last p s c :
  Str.rstrip_by p s = s → last_char s = Some c → p c = false.
Proof.
  induction s as [|a s IH]; [done|].
  intros Hfix Hlast. destruct s as [|b s].
  - simpl in *. injection Hlast as <-. by destruct (p a).
  - rewrite last_char_cons in Hlast by done.
    apply IH; [|done]. by eapply rstrip_by_cons_fixed.
Qed.

Lemma rev_app_last s acc :
  s ≠ "" → ∃ d t, last_char s = Some d ∧ String.rev_app s acc = String d t.
Proof.
  revert acc. induction s as [|a s IH]; [done|]. intros acc _.
  destruct s as [|b s].
  - by exists a, acc.
  - destruct (IH (String a acc)) as (d & t & Hd & Ht); [done|].
    exists d, t. split; [|done]. by rewrite last_char_cons.
Qed.

Lemma endswith_char_last s c :
  Str.endswith s (String c "") = true → last_char s = Some c.
Proof.
  unfold Str.endswith, String.rev. destruct s as [|a s]; [done|].
  destruct (rev_app_last (String a s) "") as (d & t & Hd & ->); [done|].
  rewrite Hd. simpl. destruct (ascii_dec c d) as [->|]; done.
Qed.

Lemma lstrip_by_length p s :
  (String.length (Str.lstrip_by p s) ≤ String.length s)%nat.
Proof. induction s as [|a s IH]; simpl; [done|]. destruct (p a); simpl; lia. Qed.

Lemma lstrip_by_fixed_first p s c t :
  Str.lstrip_by p s = s → s = String c t → p c = false.
Proof.
  intros Hfix ->. simpl in Hfix. destruct (p c) eqn:Hc; [|done].
  pose proof (lstrip_by_length p t) as Hlen.
  rewrite Hfix in Hlen. simpl in Hlen. lia.
Qed.

Lemma sanitized_edges s :
  sanitized s →
  Str.startswith s "-" = false ∧ Str.startswith s "." = false
  ∧ Str.endswith s "-" = false ∧ Str.endswith s "." = false.
Proof.
  intros (Hne & _ & Hl & Hr).
  assert (∀ c, is_edge_char c = true → Str.startswith s (String c "") = false) as Hs.
  { intros c Hc. destruct s as [|a t]; [done|].
    pose proof (lstrip_by_fixed_first _ _ _ _ Hl eq_refl) as Ha.
    unfold Str.startswith. simpl. destruct (ascii_dec c a) as [->|]; congruence. }
  assert (∀ c, is_edge_char c = true → Str.endswith s (String c "") = false) as He.
  { intros c Hc. destruct (Str.endswith s (String c "")) eqn:E; [|done].
    apply endswith_char_last in E.
    pose proof (rstrip_by_fixed_last _ _ _ Hr E). congruence. }
  repeat split; (apply Hs || apply He); reflexivity.
Qed.

Lemma cleaned_sanitized s :
  let cleaned :=
    Str.lower (Str.strip_chars "-." (re_sub_outside is_scope_char "-" false s)) in
  cleaned = "" ∨ sanitized cleaned.
Proof.
  intros cleaned. destruct (decide (cleaned = "")) as [|Hne]; [by left|right].
  subst cleaned. unfold Str.strip_chars, Str.lower in *.
  change (fun c => Str.mem_char c "-.") with is_edge_char in *.
  set (u := re_sub_outside is_scope_char "-" false s) in *.
  destruct (strip_by_fixed is_edge_char u) as [Hl Hr].
  split; [done|]. split; [|split].
  - eapply all_chars_map; [apply lower_char_scope|].
    apply lstrip_by_all_chars, rstrip_by_all_chars.
    by apply re_sub_outside_in_class.
  - rewrite lstrip_by_map by apply edge_char_lower. by rewrite Hl.
  - rewrite rstrip_by_map by apply edge_char_lower. by rewrite Hr.
Qed.

Lemma sanitized_fixed s : sanitized s → sanitize_scope s = s.
Proof.
  intros (Hne & Hclean & Hl & Hr). unfold sanitize_scope, Str.strip_chars.
  change (fun c => Str.mem_char c "-.") with is_edge_char.
  rewrite re_sub_outside_id
    by (eapply all_chars_impl; [apply clean_char_is_scope_char|done]).
  unfold Str.strip_by. rewrite Hr, Hl.
  unfold Str.lower. rewrite (map_chars_id is_clean_scope_char)
    by (done || apply clean_char_lower).
  unfold Str.or_else, Str.truthy. by rewrite bool_decide_eq_false_2.
Qed.

Lemma sanitize_scope_sanitized s : sanitized (sanitize_scope s).
Proof.
  unfold sanitize_scope. destruct (cleaned_sanitized s) as [E|H]; simpl in *.
  - rewrite E. repeat split; done.
  - unfold Str.or_else, Str.truthy.
    rewrite bool_decide_eq_false_2 by apply H. exact H.
Qed.

(** C6: sanitizing a sanitized scope changes nothing. *)
Theorem sanitize_scope_idempotent s :
  sanitize_scope (sanitize_scope s) = sanitize_scope s.
Proof. apply sanitized_fixed, sanitize_scope_sanitized. Qed.

End SanitizeFacts.

(** * Change counts *)

Section CountFacts.

Implicit Types (counts : gmap string Z) (changes : list Change).

Lemma count_changes_step_bucket counts change :
  has_buckets counts →
  count_changes_step counts change
  = alter (fun n => n + 1) (bucket_of change.(status)) counts.
Proof.
  intros Hb. unfold count_changes_step, bucket_of.
  destruct (decide (change.(status) ∈ ["A"; "M"; "D"; "R"])) as [Hin|Hout].
  - rewrite !bool_decide_eq_true_2; [done..|]. by apply Hb.
  - rewrite (bool_decide_eq_false_2 (is_Some _)) by (by intros ?%Hb).
    rewrite (bool_decide_eq_false_2 (_ ∈ _)) by done.
    by case_bool_decide.
Qed.


Lemma has_buckets_alter counts key (f : Z → Z) :
  has_buckets counts → has_buckets (alter f key counts).
Proof.
  intros Hb k. rewrite <- (Hb k), lookup_alter.
  case_decide; [|done]. subst. by rewrite fmap_is_Some.
Qed.

Lemma count_changes_fold changes counts key :
  has_buckets counts →
  has_buckets (fold_left count_changes_step changes counts)
  ∧ fold_left count_changes_step changes counts !! key
    = (fun n => n + tally (fun change => bucket_of change.(status) = key) changes)
      <$> counts !! key.
Proof.
  unfold tally. revert counts.
  induction changes as [|change changes IH]; intros counts Hb.
  - split; [done|]. simpl. destruct (counts !! key); simpl; f_equal; lia.
  - cbn [fold_left]. rewrite count_changes_step_bucket by done.
    destruct (IH (alter (fun n => n + 1) (bucket_of change.(status)) counts))
      as [Hb' Hkey]; [by apply has_buckets_alter|].
    split; [done|]. rewrite Hkey, lookup_alter, filter_cons.
    destruct (decide (bucket_of change.(status) = key)) as [->|Hne].
    + destruct (counts !! _); simpl; [|done]. f_equal. lia.
    + done.
Qed.

Lemma initial_has_buckets :
  has_buckets (<["A" := 0]> (<["M" := 0]> (<["D" := 0]> (<["R" := 0]> ∅)))).
Proof.
  intros key. rewrite !lookup_insert_is_Some, lookup_empty, is_Some_alt.
  rewrite !elem_of_cons, elem_of_nil. intuition congruence.
Qed.

Lemma count_changes_has_buckets changes : has_buckets (count_changes changes).
Proof. apply (count_changes_fold changes _ "A"), initial_has_buckets. Qed.

Lemma count_changes_lookup changes key :
  key ∈ ["A"; "M"; "D"; "R"] →
  count_changes changes !! key
  = Some (tally (fun change => bucket_of change.(status) = key) changes).
Proof.
  intros Hkey. unfold count_changes.
  destruct (count_changes_fold changes _ key initial_has_buckets) as [_ ->].
  rewrite !elem_of_cons, elem_of_nil in Hkey.
  destruct Hkey as [->|[->|[->|[->|[]]]]]; by vm_compute.
Qed.

Lemma bucket_of_spec status :
  (bucket_of status = "A" ↔ status = "A" ∨ status = "C")
  ∧ (bucket_of status = "M"
     ↔ status = "M" ∨ status ∉ ["A"; "M"; "D"; "R"; "C"])
  ∧ (bucket_of status = "D" ↔ status = "D")
  ∧ (bucket_of status = "R" ↔ status = "R").
Proof.
  unfold bucket_of. rewrite !not_elem_of_cons.
  pose proof (not_elem_of_nil status) as Hnil.
  destruct (decide (status = "A")) as [->|];
    [vm_compute; intuition congruence|].
  destruct (decide (status = "M")) as [->|];
    [vm_compute; intuition congruence|].
  destruct (decide (status = "D")) as [->|];
    [vm_compute; intuition congruence|].
  destruct (decide (status = "R")) as [->|];
    [vm_compute; intuition congruence|].
  rewrite (bool_decide_eq_false_2 (_ ∈ _))
    by (rewrite !elem_of_cons, elem_of_nil; intuition congruence).
  case_bool_decide; subst; intuition congruence.
Qed.

Lemma tally_ext (P Q : Change → Prop)
  `{∀ change, Decision (P change)} `{∀ change, Decision (Q change)} changes :
  (∀ change, P change ↔ Q change) → tally P changes = tally Q changes.
Proof.
  intros HPQ. unfold tally. f_equal. f_equal. by apply list_filter_iff.
Qed.

(** C9: a copy counts as added, an unknown status as modified, and each of
    the four known statuses counts in its own bucket; there is no other
    bucket. *)
Theorem count_changes_buckets changes :
  count_changes changes !! "A"
  = Some (tally (fun change => change.(status) = "A" ∨ change.(status) = "C") changes)
  ∧ count_changes changes !! "M"
    = Some (tally (fun change => change.(status) = "M"
                                  ∨ change.(status) ∉ ["A"; "M"; "D"; "R"; "C"]) changes)
  ∧ count_changes changes !! "D"
    = Some (tally (fun change => change.(status) = "D") changes)
  ∧ count_changes changes !! "R"
    = Some (tally (fun change => change.(status) = "R") changes)
  ∧ ∀ key, key ∉ ["A"; "M"; "D"; "R"] → count_changes changes !! key = None.
Proof.
  repeat split.
  1-4: rewrite count_changes_lookup
         by (rewrite !elem_of_cons; intuition congruence);
       f_equal; apply tally_ext; intros change;
       apply (bucket_of_spec change.(status)).
  intros key Hkey. apply eq_None_not_Some.
  by intros ?%(count_changes_has_buckets changes key).
Qed.

End CountFacts.

(** * Scope inference *)

Section ScopeFacts.

Implicit Types (paths tops : list string) (path : string) (root_like : Z).

(** One turn of the loop either appends the topic of the path or counts
    the path as root-like. *)
Lemma infer_scope_step_topic root_like tops path :
  infer_scope_step (root_like, tops) path
  = match path_topic path with
    | Some topic => (root_like, tops ++ [topic])
    | None => (root_like + 1, tops)
    end.
Proof.
  unfold path_topic, infer_scope_step.
  destruct (split_path (normalize_path path)) as [|parts0 [|parts1 parts]];
    [done..|].
  by destruct (bool_decide (basename (normalize_path path) ∈ ROOT_SCOPE_BASENAMES)).
Qed.

Lemma infer_scope_loop paths root_like tops :
  ∃ root_like',
    fold_left infer_scope_step paths (root_like, tops)
    = (root_like', tops ++ omap path_topic paths).
Proof.
  revert root_like tops.
  induction paths as [|path paths IH]; intros root_like tops; cbn [fold_left].
  - exists root_like. by rewrite app_nil_r.
  - rewrite infer_scope_step_topic.
    change (omap path_topic (path :: paths))
      with (match path_topic path with
            | Some topic => topic :: omap path_topic paths
            | None => omap path_topic paths
            end).
    destruct (path_topic path) as [topic|].
    + destruct (IH root_like (tops ++ [topic])) as [r ->].
      exists r. by rewrite <- app_assoc.
    + apply IH.
Qed.

(** The scope as a function of the set of topics. *)
Lemma infer_scope_topics paths commit_type :
  paths ≠ [] → commit_type ≠ "ci" → commit_type ≠ "docs" →
  commit_type ≠ "build" →
  infer_scope paths commit_type
  = match merge_sort (≤)%string
            (elements (list_to_set (omap path_topic paths) : gset string)) with
    | [unique0] => sanitize_scope unique0
    | _ :: _ :: _ => "multi"
    | [] => "repo"
    end.
Proof.
  intros Hne Hci Hdocs Hbuild. unfold infer_scope.
  rewrite !bool_decide_eq_false_2 by done.
  destruct (infer_scope_loop paths 0 []) as [r ->]. simpl.
  destruct (merge_sort _ _) as [|? [|? ?]]; [|done..].
  by destruct (0 <? r).
Qed.

(** C7: the scope does not depend on the order of the paths. *)
Theorem infer_scope_permutation paths paths' commit_type :
  paths ≡ₚ paths' →
  infer_scope paths commit_type = infer_scope paths' commit_type.
Proof.
  intros Hperm. destruct paths as [|path paths].
  { by apply Permutation_nil_l in Hperm as ->. }
  assert (paths' ≠ []) as Hne'.
  { intros ->. by apply Permutation_nil_r in Hperm. }
  destruct (decide (commit_type = "ci")) as [->|Hci];
    [by destruct paths'|].
  destruct (decide (commit_type = "docs")) as [->|Hdocs];
    [by destruct paths'|].
  destruct (decide (commit_type = "build")) as [->|Hbuild];
    [by destruct paths'|].
  rewrite !infer_scope_topics by done.
  by rewrite (list_to_set_perm_L _ _ (omap_Permutation path_topic _ _ Hperm)).
Qed.

Lemma infer_scope_cases paths commit_type :
  infer_scope paths commit_type ∈ ["repo"; "ci"; "docs"; "build"; "multi"]
  ∨ ∃ topic, infer_scope paths commit_type = sanitize_scope topic.
Proof.
  unfold infer_scope. repeat case_bool_decide; [left; in_list..|].
  destruct (fold_left _ _ _) as [r tops].
  destruct (merge_sort _ _) as [|unique0 [|? ?]].
  - left. destruct (0 <? r); in_list.
  - right. by exists unique0.
  - left. in_list.
Qed.

Lemma infer_scope_sanitized paths commit_type :
  sanitized (infer_scope paths commit_type).
Proof.
  destruct (infer_scope_cases paths commit_type) as [Hin|[topic ->]].
  - rewrite !elem_of_cons, elem_of_nil in Hin.
    destruct Hin as [-> |[-> |[-> |[-> |[-> |[]]]]]]; by repeat split.
  - apply sanitize_scope_sanitized.
Qed.

(** C10: what [infer_scope] returns is not empty, is made of the characters
    a-z, 0-9, dot, underscore and hyphen, neither begins nor ends with a
    hyphen or a dot, and is left unchanged by [sanitize_scope]. *)
Theorem infer_scope_fixed_point_of_sanitize paths commit_type :
  let scope := infer_scope paths commit_type in
  scope ≠ ""
  ∧ Str.all_chars is_clean_scope_char scope = true
  ∧ Str.startswith scope "-" = false ∧ Str.startswith scope "." = false
  ∧ Str.endswith scope "-" = false ∧ Str.endswith scope "." = false
  ∧ sanitize_scope scope = scope.
Proof.
  intros scope. pose proof (infer_scope_sanitized paths commit_type) as Hs.
  fold scope in Hs. destruct (sanitized_edges _ Hs) as (? & ? & ? & ?).
  repeat split; try done; [apply Hs..|by apply sanitized_fixed].
Qed.

(** *** The topic of a path *)

Lemma lstrip_dots s :
  ∃ n, s = dots n +:+ Str.lstrip_chars "." s
       ∧ Str.startswith (Str.lstrip_chars "." s) "." = false.
Proof.
  induction s as [|c s (n & Hn & Hs)].
  - by exists 0%nat.
  - unfold Str.lstrip_chars in *. simpl.
    destruct (decide (c = "."%char)) as [->|Hc].
    + exists (S n). simpl. split; [|done].
      rewrite str_app_cons. by f_equal.
    + exists 0%nat. rewrite orb_false_r, bool_decide_eq_false_2 by done.
      split; [done|]. rewrite startswith_char. by apply bool_decide_eq_false_2.
Qed.

Lemma startswith_dot_false s :
  Str.startswith s "." = false → Str.lstrip_chars "." s = s.
Proof.
  destruct s as [|c s]; [done|]. rewrite startswith_char.
  intros Hc%bool_decide_eq_false. unfold Str.lstrip_chars. simpl.
  by rewrite orb_false_r, bool_decide_eq_false_2.
Qed.

Lemma path_topic_spec path parts0 rest :
  split_path (normalize_path path) = parts0 :: rest → rest ≠ [] →
  basename (normalize_path path) ∉ ROOT_SCOPE_BASENAMES →
  path_topic path = Some (Str.or_else (Str.lstrip_chars "." parts0) parts0).
Proof.
  intros Hparts Hrest Hbase. unfold path_topic, infer_scope_step.
  rewrite Hparts. destruct rest as [|parts1 rest]; [done|].
  rewrite bool_decide_eq_false_2 by done.
  rewrite (bool_decide_eq_true_2 (1 < _)%nat) by (simpl; lia).
  rewrite andb_true_r. simpl.
  destruct (Str.startswith parts0 ".") eqn:Hdot; [done|].
  rewrite startswith_dot_false by done.
  unfold Str.or_else. by destruct (Str.truthy parts0).
Qed.

(** C3, as the code has it: the topic of a path with more than one segment
    that is not root-like is its first segment without all of its leading
    dots, and the segment itself when nothing but dots would be removed. *)
Theorem infer_scope_topic_strips_leading_dots root_like tops path parts0 rest :
  split_path (normalize_path path) = parts0 :: rest → rest ≠ [] →
  basename (normalize_path path) ∉ ROOT_SCOPE_BASENAMES →
  ∃ n remainder,
    parts0 = dots n +:+ remainder
    ∧ Str.startswith remainder "." = false
    ∧ infer_scope_step (root_like, tops) path
      = (root_like, tops ++ [if bool_decide (remainder = "") then parts0
                             else remainder]).
Proof.
  intros Hparts Hrest Hbase.
  destruct (lstrip_dots parts0) as (n & Hn & Hdot).
  exists n, (Str.lstrip_chars "." parts0). split; [done|]. split; [done|].
  rewrite infer_scope_step_topic, (path_topic_spec _ _ _ Hparts Hrest Hbase).
  unfold Str.or_else, Str.truthy. by case_bool_decide.
Qed.

(** The instance of C3 at the path [.github/workflows/ci.yml]. *)
Lemma infer_scope_topic_strips_leading_dots_witness :
  ∃ n remainder,
    ".github" = dots n +:+ remainder
    ∧ Str.startswith remainder "." = false
    ∧ infer_scope_step (0, []) ".github/workflows/ci.yml"
      = (0, [] ++ [if bool_decide (remainder = "") then ".github" else remainder]).
Proof.
  apply (infer_scope_topic_strips_leading_dots 0 [] ".github/workflows/ci.yml"
           ".github" ["workflows"; "ci.yml"]).
  - vm_compute. reflexivity.
  - discriminate.
  - vm_compute. intros H. discriminate H.
Defined.

(** C3, as the claim words it, fails on the first segment [..hidden]: the
    loop collects [hidden], with both dots gone, and not [.hidden]. *)
Lemma infer_scope_topic_two_dots :
  split_path (normalize_path "..hidden/x") = ["..hidden"; "x"]
  ∧ bool_decide (basename (normalize_path "..hidden/x") ∈ ROOT_SCOPE_BASENAMES)
    = false
  ∧ strip_single_dot "..hidden" = ".hidden"
  ∧ infer_scope_step (0, []) "..hidden/x" = (0, ["hidden"])
  ∧ infer_scope_step (0, []) "..hidden/x"
    ≠ (0, [strip_single_dot "..hidden"]).
Proof. repeat split; try (vm_compute; reflexivity). vm_compute. discriminate. Qed.

(** The instance of C7 at two orders of the same two paths. *)
Lemma infer_scope_permutation_witness :
  ["b/y.ts"; "a/x.ts"] ≡ₚ ["a/x.ts"; "b/y.ts"]
  ∧ infer_scope ["b/y.ts"; "a/x.ts"] "feat" = infer_scope ["a/x.ts"; "b/y.ts"] "feat".
Proof.
  split; [apply perm_swap|].
  apply infer_scope_permutation, perm_swap.
Defined.

End ScopeFacts.

(** * Substrings, lines and the content signal *)

Section ContainsFacts.

Implicit Types (s t sub line : string) (c : ascii).

Lemma prefix_nil_r sub : String.prefix sub "" = true → sub = "".
Proof. by destruct sub. Qed.

Lemma prefix_cons c d sub s :
  String.prefix (String c sub) (String d s)
  = bool_decide (c = d) && String.prefix sub s.
Proof.
  cbn [String.prefix]. by destruct (ascii_dec c d); case_bool_decide.
Qed.

Lemma prefix_app_r sub s t :
  String.prefix sub s = true → String.prefix sub (s +:+ t) = true.
Proof.
  revert s. induction sub as [|c sub IH]; intros s.
  - intros _. by destruct (s +:+ t).
  - destruct s as [|d s]; [done|]. rewrite str_app_cons, !prefix_cons.
    intros [-> ?]%andb_prop. simpl. auto.
Qed.

Lemma contains_cons sub c s :
  Str.contains sub s = true → Str.contains sub (String c s) = true.
Proof. intros H. cbn [Str.contains]. rewrite H. apply orb_true_r. Qed.

Lemma contains_app_r sub s t :
  Str.contains sub s = true → Str.contains sub (s +:+ t) = true.
Proof.
  induction s as [|c s IH].
  - cbn [Str.contains]. rewrite orb_false_r. intros ->%prefix_nil_r.
    by destruct t.
  - rewrite str_app_cons. cbn [Str.contains].
    intros [H|H]%orb_prop; apply orb_true_iff; [left|right; auto].
    by apply (prefix_app_r _ (String c s)).
Qed.

Lemma contains_app_l sub s t :
  Str.contains sub t = true → Str.contains sub (s +:+ t) = true.
Proof.
  intros H. induction s as [|c s IH]; [done|].
  rewrite str_app_cons. by apply contains_cons.
Qed.

(** A text without the character [c] that begins, or occurs, in
    [s ++ c ++ t] does so in [s] or in [t]. *)
Lemma prefix_app_sep sub s c t :
  Str.mem_char c sub = false →
  String.prefix sub (s +:+ String c t) = true → String.prefix sub s = true.
Proof.
  revert s. induction sub as [|d sub IH]; intros s Hc.
  - by destruct s.
  - cbn [Str.mem_char] in Hc. apply orb_false_elim in Hc as [Hcd Hc].
    destruct s as [|a s].
    + rewrite str_app_nil_l, prefix_cons.
      intros [Hdc _]%andb_prop. apply bool_decide_eq_true in Hdc as ->.
      by rewrite bool_decide_eq_true_2 in Hcd.
    + rewrite str_app_cons, !prefix_cons.
      intros [-> ?]%andb_prop. simpl. auto.
Qed.

Lemma contains_app_sep sub s c t :
  Str.mem_char c sub = false →
  Str.contains sub (s +:+ String c t) = true →
  Str.contains sub s = true ∨ Str.contains sub t = true.
Proof.
  intros Hc. induction s as [|a s IH].
  - rewrite str_app_nil_l. cbn [Str.contains].
    intros [H|H]%orb_prop; [left|by right].
    apply (prefix_app_sep _ "") in H; [|done]. by rewrite H.
  - rewrite str_app_cons. cbn [Str.contains].
    intros [H|H]%orb_prop.
    + left. apply (prefix_app_sep _ (String a s)) in H; [|done]. by rewrite H.
    + destruct (IH H) as [->|?]; [left; apply orb_true_r|by right].
Qed.

Lemma contains_join sub c lines :
  sub ≠ "" → Str.mem_char c sub = false →
  Str.contains sub (Str.join (String c "") lines) = true →
  ∃ line, line ∈ lines ∧ Str.contains sub line = true.
Proof.
  intros Hne Hc. unfold Str.join.
  induction lines as [|line [|line' lines] IH].
  - cbn. rewrite orb_false_r. by intros ?%prefix_nil_r.
  - intros H. exists line. split; [left|done].
  - change (String.concat (String c "") (line :: line' :: lines))
      with (line +:+ String c (String.concat (String c "") (line' :: lines))).
    intros H. destruct (contains_app_sep _ _ _ _ Hc H) as [H'|H'].
    + exists line. split; [left|done].
    + destruct (IH H') as (l & Hl & Hsub). exists l. split; [by right|done].
Qed.

Lemma lower_app s t : Str.lower (s +:+ t) = Str.lower s +:+ Str.lower t.
Proof. apply map_chars_app. Qed.

Lemma lower_join lines :
  Str.lower (Str.join LF lines) = Str.join LF (map Str.lower lines).
Proof.
  unfold Str.join, LF. induction lines as [|line [|line' lines] IH]; [done..|].
  change (String.concat (String "010" "") (line :: line' :: lines))
    with (line +:+ String "010" (String.concat (String "010" "") (line' :: lines))).
  rewrite lower_app. cbn [Str.lower Str.map_chars]. fold (Str.lower).
  change (Str.map_chars Str.lower_char) with Str.lower. by rewrite IH.
Qed.

(** *** Lines *)

Lemma splitlines_nil s : Str.splitlines s = [] → s = "".
Proof.
  destruct s as [|c s]; [done|]. cbn [Str.splitlines].
  destruct (Str.is_linebreak c).
  - destruct s as [|d s]; [done|]. by destruct (_ && _).
  - by destruct (Str.splitlines s).
Qed.

Lemma splitlines_first_line s line lines :
  Str.splitlines s = line :: lines → ∃ rest, s = line +:+ rest.
Proof.
  revert line lines. induction s as [|c s IH]; intros line lines; [done|].
  cbn [Str.splitlines]. destruct (Str.is_linebreak c).
  - intros H. exists (String c s).
    assert (line = "") as ->; [|done].
    destruct s as [|d s]; [by injection H|].
    destruct (_ && _); by injection H.
  - destruct (Str.splitlines s) as [|l ls] eqn:E.
    + intros [= <- <-]. apply splitlines_nil in E as ->. by exists "".
    + intros [= <- <-]. destruct (IH _ _ eq_refl) as [rest ->].
      by exists rest.
Qed.

(** Every line of a text occurs in the text. *)
Lemma splitlines_infix s line :
  line ∈ Str.splitlines s → ∃ pre post, s = pre +:+ line +:+ post.
Proof.
  remember (String.length s) as n eqn:Hn. revert s Hn line.
  induction n as [n IH] using lt_wf_ind. intros s -> line.
  destruct s as [|c s]; [by intros ?%elem_of_nil|].
  assert (∀ t, (String.length t ≤ String.length s)%nat →
            line ∈ Str.splitlines t →
            ∀ skipped, String c s = skipped +:+ t →
            ∃ pre post, String c s = pre +:+ line +:+ post) as Hrest.
  { intros t Hlen Hin skipped ->.
    destruct (IH (String.length t)) with (s := t) (line := line)
      as (pre & post & ->); [simpl; lia|done..|].
    exists (skipped +:+ pre), post. by rewrite str_app_assoc. }
  cbn [Str.splitlines]. destruct (Str.is_linebreak c).
  - assert (line ∈ [""] → ∃ pre post, String c s = pre +:+ line +:+ post)
      as Hempty.
    { intros ->%list_elem_of_singleton. by exists "", (String c s). }
    destruct s as [|d s]; [done|].
    destruct (_ && _).
    + intros [->|Hin]%elem_of_cons; [by apply Hempty, list_elem_of_singleton|].
      apply (Hrest s) with (skipped := String c (String d "")); [simpl; lia|done..].
    + intros [->|Hin]%elem_of_cons; [by apply Hempty, list_elem_of_singleton|].
      apply (Hrest (String d s)) with (skipped := String c ""); [simpl; lia|done..].
  - destruct (Str.splitlines s) as [|l ls] eqn:E.
    + intros ->%list_elem_of_singleton. apply splitlines_nil in E as ->.
      by exists "", "".
    + intros [->|Hin]%elem_of_cons.
      * destruct (splitlines_first_line _ _ _ E) as [rest ->].
        by exists "", rest.
      * apply (Hrest s) with (skipped := String c ""); [lia| |done].
        rewrite E. by right.
Qed.

(** *** The content signal *)

Lemma extract_content_signal_lines lines acc x :
  x ∈ fold_left extract_content_signal_step lines acc →
  x ∈ acc ∨ ∃ line, line ∈ lines ∧ x = Str.drop 1 line.
Proof.
  revert acc. induction lines as [|line lines IH]; intros acc; [by left|].
  cbn [fold_left]. intros [Hin|(l & Hl & ->)]%IH.
  - unfold extract_content_signal_step in Hin.
    repeat (destruct (Str.startswith line _); cbn [orb] in Hin); try by left.
    all: apply elem_of_app in Hin as [?|Hx]; [by left|];
      apply list_elem_of_singleton in Hx as ->;
      right; exists line; split; [left|done].
  - right. exists l. split; [by right|done].
Qed.

Lemma contains_lower_drop sub line :
  Str.contains sub (Str.lower (Str.drop 1 line)) = true →
  Str.contains sub (Str.lower line) = true.
Proof. destruct line as [|c line]; [done|]. apply contains_cons. Qed.

(** A text without line feed that occurs in the content signal occurs in
    the lower-cased diff. *)
Lemma contains_content_signal sub diff_text :
  sub ≠ "" → Str.mem_char "010" sub = false →
  Str.contains sub (extract_content_signal diff_text) = true →
  Str.contains sub (Str.lower diff_text) = true.
Proof.
  intros Hne Hlf. unfold extract_content_signal. rewrite lower_join.
  intros (l' & Hl' & Hsub)%contains_join; [|done..].
  apply list_elem_of_fmap in Hl' as (l & -> & Hl).
  apply extract_content_signal_lines in Hl as [Hl|(line & Hline & ->)];
    [by apply elem_of_nil in Hl|].
  apply contains_lower_drop in Hsub.
  apply splitlines_infix in Hline as (pre & post & ->).
  rewrite !lower_app. by apply contains_app_l, contains_app_r.
Qed.

End ContainsFacts.

(** * Type inference *)

Section TypeFacts.

Implicit Types (paths : list string) (diff_text : string)
  (counts : gmap string Z).

(** Without the revert phrase in the diff, the type is the first category
    that holds of all paths, and otherwise none of the five categories and
    not [revert]. *)
Lemma infer_type_not_revert paths diff_text counts :
  paths ≠ [] →
  Str.contains "this reverts commit" (Str.lower diff_text) = false →
  match first_category paths with
  | Some category => infer_type paths diff_text counts = Return category
  | None =>
      infer_type paths diff_text counts
      ∈ [Return "perf"; Return "fix"; Return "refactor"; Return "feat";
         Return "chore"; Raise (KeyError "A")]
  end.
Proof.
  intros Hne Hrev. unfold infer_type, first_category, category_rules.
  rewrite bool_decide_eq_false_2, Hrev by done. cbn [find fst snd fmap option_fmap option_map].
  destruct (forallb is_docs paths); [done|].
  destruct (forallb is_test paths); [done|].
  destruct (forallb is_ci paths); [done|].
  destruct (forallb is_build paths); [done|].
  destruct (forallb is_style paths); [done|].
  cbn [fmap option_fmap option_map].
  destruct (_ || _); [in_list|].
  destruct (has_keyword _ FIX_KEYWORDS); [in_list|].
  destruct (has_keyword _ REFACTOR_KEYWORDS); [in_list|].
  unfold dict_item. destruct (counts !! "A") as [added|]; [|in_list].
  cbn. destruct (0 <? added); in_list.
Qed.

Lemma first_category_holds paths category :
  first_category paths = Some category →
  ∃ rule, rule ∈ category_rules ∧ snd rule = category
          ∧ forallb (fst rule) paths = true.
Proof.
  unfold first_category. destruct (find _ _) as [rule|] eqn:E; [|done].
  intros [= <-]. apply find_some in E as [Hin Hall].
  exists rule. by rewrite list_elem_of_In.
Qed.

Lemma category_rules_name rule rule' :
  rule ∈ category_rules → rule' ∈ category_rules →
  snd rule = snd rule' → rule = rule'.
Proof.
  unfold category_rules. rewrite !elem_of_cons, !elem_of_nil.
  intros [->|[->|[->|[->|[->|[]]]]]] [->|[->|[->|[->|[->|[]]]]]]; by simpl.
Qed.

Lemma category_rules_not_later rule :
  rule ∈ category_rules →
  Return (snd rule)
  ∉ [Return "perf"; Return "fix"; Return "refactor"; Return "feat";
     Return "chore"; Raise (KeyError "A")].
Proof.
  unfold category_rules. rewrite !elem_of_cons, !elem_of_nil.
  intros [->|[->|[->|[->|[->|[]]]]]]; simpl; intuition discriminate.
Qed.

(** C2, as the code has it: for a non-empty list of paths the type is
    [revert] exactly when the lower-cased diff text, context and metadata
    lines included, contains the revert phrase, whatever the paths are; in
    particular it is [revert] whenever the content signal contains it. *)
Theorem infer_type_revert_iff_diff_has_marker paths diff_text counts :
  paths ≠ [] →
  (infer_type paths diff_text counts = Return "revert"
   ↔ Str.contains "this reverts commit" (Str.lower diff_text) = true)
  ∧ (Str.contains "this reverts commit" (extract_content_signal diff_text) = true
     → infer_type paths diff_text counts = Return "revert").
Proof.
  intros Hne.
  assert (Str.contains "this reverts commit" (Str.lower diff_text) = true
          → infer_type paths diff_text counts = Return "revert") as Hif.
  { intros H. unfold infer_type. by rewrite bool_decide_eq_false_2, H. }
  split; [split; [|done]|].
  - intros Htype.
    destruct (Str.contains _ (Str.lower diff_text)) eqn:Hrev; [done|].
    pose proof (infer_type_not_revert paths diff_text counts Hne Hrev) as H.
    destruct (first_category paths) as [category|] eqn:Hcat.
    + apply first_category_holds in Hcat as (rule & Hrule & <- & _).
      rewrite Htype in H. revert Hrule H. unfold category_rules.
      rewrite !elem_of_cons, !elem_of_nil.
      intros [->|[->|[->|[->|[->|[]]]]]]; by simpl.
    + rewrite Htype, !elem_of_cons, elem_of_nil in H. intuition discriminate.
  - intros H. apply Hif. by apply contains_content_signal.
Qed.

(** The instance of C2 at a diff that adds a line with the phrase. *)
Lemma infer_type_revert_iff_diff_has_marker_witness :
  ["docs/notes.md"] ≠ []
  ∧ (infer_type ["docs/notes.md"] "+This reverts commit 1a2b3c4." ∅ = Return "revert"
     ↔ Str.contains "this reverts commit"
         (Str.lower "+This reverts commit 1a2b3c4.") = true)
  ∧ (Str.contains "this reverts commit"
       (extract_content_signal "+This reverts commit 1a2b3c4.") = true
     → infer_type ["docs/notes.md"] "+This reverts commit 1a2b3c4." ∅
       = Return "revert").
Proof.
  split; [discriminate|].
  apply (infer_type_revert_iff_diff_has_marker ["docs/notes.md"]
           "+This reverts commit 1a2b3c4." ∅).
  discriminate.
Defined.

(** C2, as the claim words it, fails on a diff that has the phrase on a
    context line only: the type is [revert] although the content signal
    does not contain the phrase. *)
Lemma infer_type_revert_on_context_line :
  infer_type ["src/app.py"] context_line_diff
    (count_changes [mkChange "M" "src/app.py" None]) = Return "revert"
  ∧ Str.contains "this reverts commit" (extract_content_signal context_line_diff)
    = false
  ∧ ¬ (infer_type ["src/app.py"] context_line_diff
         (count_changes [mkChange "M" "src/app.py" None]) = Return "revert"
       ↔ Str.contains "this reverts commit"
           (extract_content_signal context_line_diff) = true).
Proof.
  assert (infer_type ["src/app.py"] context_line_diff
            (count_changes [mkChange "M" "src/app.py" None]) = Return "revert")
    as Htype by (vm_compute; reflexivity).
  assert (Str.contains "this reverts commit"
            (extract_content_signal context_line_diff) = false)
    as Hsignal by (vm_compute; reflexivity).
  split; [done|]. split; [done|].
  intros [Hto _]. rewrite (Hto Htype) in Hsignal. discriminate.
Qed.

(** C4: when the revert rule does not fire on a non-empty list of paths,
    the type is the first of docs, test, ci, build, style whose predicate
    holds of every path, and a category that one path fails is not the
    type. *)
Theorem infer_type_category_rules paths diff_text counts :
  paths ≠ [] →
  Str.contains "this reverts commit" (Str.lower diff_text) = false →
  (∀ category,
     first_category paths = Some category →
     infer_type paths diff_text counts = Return category)
  ∧ (∀ rule path,
       rule ∈ category_rules → path ∈ paths → fst rule path = false →
       infer_type paths diff_text counts ≠ Return (snd rule)).
Proof.
  intros Hne Hrev.
  pose proof (infer_type_not_revert paths diff_text counts Hne Hrev) as H.
  split.
  - intros category Hcat. by rewrite Hcat in H.
  - intros rule path Hrule Hpath Hfails Htype.
    destruct (first_category paths) as [category|] eqn:Hcat.
    + rewrite Htype in H. injection H as <-.
      apply first_category_holds in Hcat as (rule' & Hrule' & Hname & Hall).
      apply (category_rules_name _ _ Hrule' Hrule) in Hname as ->.
      rewrite forallb_forall in Hall.
      rewrite (Hall path) in Hfails; [done|]. by apply list_elem_of_In.
    + rewrite Htype in H. by apply category_rules_not_later in H.
Qed.

(** The instance of C4 at a change set of two documentation paths. *)
Lemma infer_type_category_rules_witness :
  ["docs/guide.md"; "README.md"] ≠ []
  ∧ Str.contains "this reverts commit" (Str.lower "+more words") = false
  ∧ (∀ category,
       first_category ["docs/guide.md"; "README.md"] = Some category →
       infer_type ["docs/guide.md"; "README.md"] "+more words" ∅
       = Return category)
  ∧ (∀ rule path,
       rule ∈ category_rules → path ∈ ["docs/guide.md"; "README.md"] →
       fst rule path = false →
       infer_type ["docs/guide.md"; "README.md"] "+more words" ∅
       ≠ Return (snd rule)).
Proof.
  split; [discriminate|]. split; [vm_compute; reflexivity|].
  apply (infer_type_category_rules ["docs/guide.md"; "README.md"]
           "+more words" ∅).
  - discriminate.
  - vm_compute. reflexivity.
Defined.

End TypeFacts.

(** * Intro synthesis *)

Section IntroFacts.

Implicit Types (paths : list string) (counts : gmap string Z).

Lemma slice_to_all {A : Type} (xs : list A) (n : Z) :
  Z.of_nat (length xs) ≤ n → slice_to xs n = xs.
Proof.
  intros Hn. unfold slice_to. rewrite (proj2 (Z.leb_le 0 n)) by lia.
  apply take_ge. lia.
Qed.

Lemma slice_to_take {A : Type} (xs : list A) (n : Z) :
  0 ≤ n → slice_to xs n = take (Z.to_nat n) xs.
Proof. intros Hn. unfold slice_to. by rewrite (proj2 (Z.leb_le 0 n)). Qed.

Lemma infer_intro_buckets scope counts paths max_files a m d r :
  counts !! "A" = Some a → counts !! "M" = Some m →
  counts !! "D" = Some d → counts !! "R" = Some r →
  infer_intro scope counts paths max_files
  = Return (intro_lead (Z.of_nat (length paths)) a m d r scope
            +:+ Str.join "，" (slice_to paths max_files)
            +:+ (if max_files <? Z.of_nat (length paths)
                 then " 等" +:+ Str.of_int (Z.of_nat (length paths)) +:+ "个文件"
                 else "")
            +:+ "。").
Proof.
  intros Ha Hm Hd Hr. unfold infer_intro, dict_item, intro_lead.
  rewrite Ha, Hm, Hd, Hr. cbn [mbind result_bind]. f_equal.
  by rewrite !str_app_assoc.
Qed.

(** C8: with [max_files] at least one, exactly [max_files] paths are all
    listed and no suffix follows; [max_files + 1] paths are listed up to
    the first [max_files] and the suffix gives the total. *)
Theorem infer_intro_max_files_boundary scope counts paths max_files a m d r :
  1 ≤ max_files →
  counts !! "A" = Some a → counts !! "M" = Some m →
  counts !! "D" = Some d → counts !! "R" = Some r →
  (Z.of_nat (length paths) = max_files →
   infer_intro scope counts paths max_files
   = Return (intro_lead max_files a m d r scope
             +:+ Str.join "，" paths +:+ "。"))
  ∧ (Z.of_nat (length paths) = max_files + 1 →
     infer_intro scope counts paths max_files
     = Return (intro_lead (max_files + 1) a m d r scope
               +:+ Str.join "，" (take (Z.to_nat max_files) paths)
               +:+ " 等" +:+ Str.of_int (max_files + 1) +:+ "个文件"
               +:+ "。")).
Proof.
  intros Hmax Ha Hm Hd Hr.
  rewrite (infer_intro_buckets _ _ _ _ _ _ _ _ Ha Hm Hd Hr).
  split; intros Hlen.
  - rewrite slice_to_all by lia. rewrite Hlen. by rewrite Z.ltb_irrefl.
  - rewrite slice_to_take by lia. rewrite Hlen.
    rewrite (proj2 (Z.ltb_lt _ _)) by lia. by rewrite !str_app_assoc.
Qed.

(** The instance of C8 at [max_files = 2] and the counts of two added
    files and one modified file. *)
Lemma infer_intro_max_files_boundary_witness :
  1 ≤ 2
  ∧ (Z.of_nat (length ["a/x.py"; "a/y.py"]) = 2 →
     infer_intro "a" (count_changes [mkChange "A" "a/x.py" None;
                                      mkChange "A" "a/y.py" None;
                                      mkChange "M" "a/z.py" None])
       ["a/x.py"; "a/y.py"] 2
     = Return (intro_lead 2 2 1 0 0 "a"
               +:+ Str.join "，" ["a/x.py"; "a/y.py"] +:+ "。")).
Proof.
  split; [lia|].
  apply (infer_intro_max_files_boundary "a"
           (count_changes [mkChange "A" "a/x.py" None;
                           mkChange "A" "a/y.py" None;
                           mkChange "M" "a/z.py" None])
           ["a/x.py"; "a/y.py"] 2 2 1 0 0);
    [lia | vm_compute; reflexivity..].
Defined.

End IntroFacts.

(** * The change parser *)

Section ParserFacts.

Implicit Types (line raw : string) (changes : list Change).





(** C1 fails on the text of one line, a tab followed by [foo]: the line
    is not blank, its status token is empty, and taking the first
    character of the token raises [IndexError]; the line is not dropped. *)
Theorem parse_name_status_empty_status_token :
  Str.splitlines (String TAB "foo") = [String TAB "foo"]
  ∧ Str.truthy (Str.strip (String TAB "foo")) = true
  ∧ status_token (String TAB "foo") = ""
  ∧ parse_name_status (String TAB "foo") = Raise IndexError.
Proof. repeat split; vm_compute; reflexivity. Qed.

End ParserFacts.

(** * The local description and the remote result *)

Section RemoteFacts.

Variable json_loads : string → string + json.
Variable py_str : json → string.

Implicit Types (paths : list string) (counts : gmap string Z) (args : Args)
  (staged_changes : list Change) (diff_text raw : string).

Lemma dict_item_bucket counts key :
  has_buckets counts → key ∈ ["A"; "M"; "D"; "R"] →
  ∃ n, dict_item counts key = Return n.
Proof.
  intros Hb Hkey. apply Hb in Hkey as [n Hn].
  exists n. unfold dict_item. by rewrite Hn.
Qed.

(** With the four buckets present, local inference always has a result,
    and the type is one of the taxonomy. *)
Lemma infer_type_total paths diff_text counts :
  has_buckets counts →
  ∃ commit_type,
    infer_type paths diff_text counts = Return commit_type
    ∧ commit_type ∈ ALLOWED_TYPES.
Proof.
  intros Hb. unfold infer_type.
  destruct (dict_item_bucket counts "A" Hb) as [a ->]; [compute_done|].
  cbn [mbind result_bind].
  repeat match goal with
         | |- context [if ?b then _ else _] => destruct b
         end; eexists; (split; [reflexivity|compute_done]).
Qed.

Lemma infer_theme_total scope counts commit_type :
  has_buckets counts →
  ∃ theme, infer_theme scope counts commit_type = Return theme.
Proof.
  intros Hb. unfold infer_theme, and_then, positive_count, zero_count.
  destruct (dict_item_bucket counts "A" Hb) as [a ->]; [compute_done|].
  destruct (dict_item_bucket counts "M" Hb) as [m ->]; [compute_done|].
  destruct (dict_item_bucket counts "D" Hb) as [d ->]; [compute_done|].
  destruct (dict_item_bucket counts "R" Hb) as [r ->]; [compute_done|].
  cbn [mbind result_bind].
  repeat match goal with
         | |- context [if ?b then _ else _] =>
             destruct b; cbn [mbind result_bind]
         end; by eexists.
Qed.

Lemma infer_intro_total scope counts paths max_files :
  has_buckets counts →
  ∃ intro, infer_intro scope counts paths max_files = Return intro.
Proof.
  intros Hb.
  destruct (Hb "A") as [_ [a Ha]]; [compute_done|].
  destruct (Hb "M") as [_ [m Hm]]; [compute_done|].
  destruct (Hb "D") as [_ [d Hd]]; [compute_done|].
  destruct (Hb "R") as [_ [r Hr]]; [compute_done|].
  rewrite (infer_intro_buckets _ _ _ _ _ _ _ _ Ha Hm Hd Hr). by eexists.
Qed.

Lemma override_or_total (o : option string) (computed : result string) :
  (∃ s, computed = Return s) → ∃ s, override_or o computed = Return s.
Proof.
  intros [s ->]. unfold override_or.
  destruct o as [v|]; [destruct (Str.truthy v)|]; by eexists.
Qed.

Lemma local_description_total args paths diff_text counts :
  has_buckets counts →
  ∃ local_type local_scope local_theme local_intro,
    local_description args paths diff_text counts
    = Return (local_type, local_scope, local_theme, local_intro)
    ∧ (given args.(type_override) = false → local_type ∈ ALLOWED_TYPES).
Proof.
  intros Hb. unfold local_description.
  destruct (infer_type_total paths diff_text counts Hb) as (t & Ht & Hallowed).
  assert (∃ local_type,
            override_or args.(type_override) (infer_type paths diff_text counts)
            = Return local_type
            ∧ (given args.(type_override) = false → local_type ∈ ALLOWED_TYPES))
    as (local_type & -> & Htype).
  { unfold override_or, given. rewrite Ht.
    destruct args.(type_override) as [v|]; [destruct (Str.truthy v)|];
      eexists; split; done. }
  cbn [mbind result_bind].
  set (local_scope := match args.(scope_override) with
                      | Some s => _
                      | None => _
                      end).
  destruct (override_or_total args.(theme_override)
              (infer_theme local_scope counts local_type)
              (infer_theme_total _ _ _ Hb)) as [local_theme ->].
  destruct (override_or_total args.(intro_override)
              (infer_intro local_scope counts paths args.(max_files))
              (infer_intro_total _ _ _ _ Hb)) as [local_intro ->].
  cbn [mbind result_bind]. by eexists _, _, _, _.
Qed.

Lemma clamp_type_allowed commit_type :
  commit_type ∈ ALLOWED_TYPES → clamp_type commit_type = commit_type.
Proof. intros H. unfold clamp_type. by rewrite bool_decide_eq_true_2. Qed.

(** *** Validation of a reply that decodes to an object *)

Lemma normalize_ai_result_not_json raw exc :
  json_loads raw = inl exc →
  ∃ msg, normalize_ai_result json_loads py_str raw = Raise (RuntimeError msg).
Proof. intros H. unfold normalize_ai_result. rewrite H. by eexists. Qed.

Lemma normalize_ai_result_object raw fields :
  json_loads raw = inr (JObject fields) →
  let field key := py_str (default (JString "") (fields !! key)) in
  let commit_type := Str.lower (Str.strip (field "type")) in
  let scope := sanitize_scope (Str.or_else (Str.strip (field "scope")) "repo") in
  let theme := Str.strip (field "theme") in
  let intro := Str.strip (field "intro") in
  if bool_decide (commit_type ∈ ALLOWED_TYPES ∧ theme ≠ "" ∧ intro ≠ "")
  then normalize_ai_result json_loads py_str raw
       = Return (commit_type, scope, theme, intro)
  else ∃ msg,
      normalize_ai_result json_loads py_str raw = Raise (RuntimeError msg).
Proof.
  intros H. unfold normalize_ai_result. rewrite H.
  cbn [json_get mbind result_bind]. unfold Str.truthy.
  repeat case_bool_decide; simpl; try (by eexists); try done; tauto.
Qed.

(** *** The decision of [run] between the remote and the local result *)

(** A [RuntimeError] of the remote call or of the validation, without
    [--ai-required]: all four fields are the local ones. *)
Lemma run_falls_back_to_local args staged_changes diff_text ai_reply msg :
  1 ≤ args.(max_files) → staged_changes ≠ [] →
  args.(no_ai) = false → args.(ai_required) = false →
  given args.(type_override) = false → given args.(scope_override) = false →
  given args.(theme_override) = false → given args.(intro_override) = false →
  (ai_raw ← ai_reply; normalize_ai_result json_loads py_str ai_raw)
  = Raise (RuntimeError msg) →
  ∃ local_type local_scope local_theme local_intro,
    local_description args (map path staged_changes) diff_text
      (count_changes staged_changes)
    = Return (local_type, local_scope, local_theme, local_intro)
    ∧ run json_loads py_str args staged_changes diff_text ai_reply
      = Described local_type local_scope local_theme local_intro false.
Proof.
  intros Hmax Hne Hai Hreq Ht Hs Hth Hi Hraise.
  destruct (local_description_total args (map path staged_changes) diff_text
              (count_changes staged_changes))
    as (lt & ls & lth & li & Hlocal & Hallowed);
    [apply count_changes_has_buckets|].
  exists lt, ls, lth, li. split; [done|]. unfold run.
  rewrite (proj2 (Z.ltb_ge _ _)) by lia.
  rewrite bool_decide_eq_false_2 by done.
  rewrite Hlocal, Hai, Ht, Hs, Hth, Hi, Hraise, Hreq. cbn.
  by rewrite clamp_type_allowed by auto.
Qed.

(** C5 fails on a reply that is valid JSON but not an object, such as
    [[1]]: [data.get] raises [AttributeError], which is not a
    [RuntimeError]; neither handler of [run] catches it, so the local
    description is not used and the exception leaves [run]. *)
Theorem remote_non_object_reply_is_not_caught raw items staged_changes diff_text :
  json_loads raw = inr (JArray items) → staged_changes ≠ [] →
  normalize_ai_result json_loads py_str raw = Raise AttributeError
  ∧ run json_loads py_str default_args staged_changes diff_text (Return raw)
    = Uncaught AttributeError.
Proof.
  intros Hraw Hne.
  assert (normalize_ai_result json_loads py_str raw = Raise AttributeError)
    as Hnorm by (unfold normalize_ai_result; by rewrite Hraw).
  split; [done|].
  destruct (local_description_total default_args (map path staged_changes)
              diff_text (count_changes staged_changes))
    as (lt & ls & lth & li & Hlocal & _); [apply count_changes_has_buckets|].
  unfold run. cbn [max_files default_args].
  rewrite bool_decide_eq_false_2 by done.
  rewrite Hlocal. cbn [no_ai default_args type_override scope_override
                         theme_override intro_override given negb orb andb
                         mbind result_bind].
  by rewrite Hnorm.
Qed.

End RemoteFacts.

(** The instance of C5 at the reply [[1]] for one modified file. *)
Lemma remote_non_object_reply_is_not_caught_witness :
  sample_loads "[1]" = inr (JArray [JInt 1])
  ∧ [mkChange "M" "src/app.py" None] ≠ []
  ∧ normalize_ai_result sample_loads sample_str "[1]" = Raise AttributeError
  ∧ run sample_loads sample_str default_args [mkChange "M" "src/app.py" None]
      "+x = 1" (Return "[1]")
    = Uncaught AttributeError.
Proof.
  split; [reflexivity|]. split; [discriminate|].
  apply (remote_non_object_reply_is_not_caught sample_loads sample_str "[1]"
           [JInt 1] [mkChange "M" "src/app.py" None] "+x = 1").
  - reflexivity.
  - discriminate.
Defined.

(** * Paths and the path classifier *)

Section PathFacts.

Implicit Types (s path : string).

Lemma slash_char_space c : Str.is_space (slash_char c) = Str.is_space c.
Proof. destruct c as [[] [] [] [] [] [] [] []]; vm_compute; congruence. Qed.

Lemma slash_char_idem c : slash_char (slash_char c) = slash_char c.
Proof. destruct c as [[] [] [] [] [] [] [] []]; vm_compute; congruence. Qed.

Lemma slash_char_not_backslash c :
  negb (bool_decide (slash_char c = "092"%char)) = true.
Proof. destruct c as [[] [] [] [] [] [] [] []]; vm_compute; congruence. Qed.

Lemma lower_char_space c : Str.is_space (Str.lower_char c) = Str.is_space c.
Proof. destruct c as [[] [] [] [] [] [] [] []]; vm_compute; congruence. Qed.

Lemma lower_char_idem c : Str.lower_char (Str.lower_char c) = Str.lower_char c.
Proof. destruct c as [[] [] [] [] [] [] [] []]; vm_compute; congruence. Qed.

Lemma lower_char_slash c :
  Str.lower_char (slash_char c) = slash_char (Str.lower_char c).
Proof. destruct c as [[] [] [] [] [] [] [] []]; vm_compute; congruence. Qed.

Lemma map_chars_map_chars (f g : ascii → ascii) s :
  Str.map_chars f (Str.map_chars g s) = Str.map_chars (fun c => f (g c)) s.
Proof. induction s as [|c s IH]; simpl; [done | by rewrite IH]. Qed.

Lemma map_chars_ext (f g : ascii → ascii) s :
  (∀ c, f c = g c) → Str.map_chars f s = Str.map_chars g s.
Proof. intros Hfg. induction s as [|c s IH]; simpl; [done | by rewrite Hfg, IH]. Qed.

Lemma all_chars_map_chars (p : ascii → bool) (f : ascii → ascii) s :
  (∀ c, p (f c) = true) → Str.all_chars p (Str.map_chars f s) = true.
Proof. intros Hf. induction s as [|c s IH]; simpl; [done | by rewrite Hf, IH]. Qed.

Lemma strip_by_map (p : ascii → bool) (f : ascii → ascii) s :
  (∀ c, p (f c) = p c) →
  Str.strip_by p (Str.map_chars f s) = Str.map_chars f (Str.strip_by p s).
Proof.
  intros Hf. unfold Str.strip_by. by rewrite rstrip_by_map, lstrip_by_map.
Qed.

Lemma strip_by_idem (p : ascii → bool) s :
  Str.strip_by p (Str.strip_by p s) = Str.strip_by p s.
Proof.
  destruct (strip_by_fixed p s) as [Hl Hr].
  unfold Str.strip_by at 1. by rewrite Hr, Hl.
Qed.

Lemma normalize_path_unfold path :
  normalize_path path = Str.strip_by Str.is_space (Str.map_chars slash_char path).
Proof. reflexivity. Qed.

Lemma normalize_path_fixed path :
  normalize_path (normalize_path path) = normalize_path path
  ∧ Str.all_chars (fun c => negb (bool_decide (c = "092"%char)))
      (normalize_path path) = true
  ∧ Str.strip (normalize_path path) = normalize_path path.
Proof.
  rewrite !normalize_path_unfold. split; [|split].
  - rewrite strip_by_map by apply slash_char_space.
    rewrite strip_by_idem.
    rewrite <- strip_by_map by apply slash_char_space.
    rewrite map_chars_map_chars. f_equal. apply map_chars_ext, slash_char_idem.
  - apply lstrip_by_all_chars, rstrip_by_all_chars, all_chars_map_chars.
    apply slash_char_not_backslash.
  - apply strip_by_idem.
Qed.

(** X1: normalizing a path twice is normalizing it once; a normalized path
    has no backslash and no white space at either end. *)
Theorem normalize_path_idempotent path :
  normalize_path (normalize_path path) = normalize_path path
  ∧ Str.all_chars (fun c => negb (bool_decide (c = "092"%char)))
      (normalize_path path) = true
  ∧ Str.strip (normalize_path path) = normalize_path path.
Proof. apply normalize_path_fixed. Qed.

Lemma lower_normalize_path path :
  Str.lower (normalize_path path) = normalize_path (Str.lower path).
Proof.
  rewrite !normalize_path_unfold. unfold Str.lower.
  rewrite <- strip_by_map by apply lower_char_space. f_equal.
  rewrite !map_chars_map_chars. apply map_chars_ext, lower_char_slash.
Qed.

Lemma lower_idem s : Str.lower (Str.lower s) = Str.lower s.
Proof.
  unfold Str.lower. rewrite map_chars_map_chars.
  apply map_chars_ext, lower_char_idem.
Qed.

(** What every predicate looks at: the lower-cased normalized path. *)
Lemma classifier_key_lower path :
  Str.lower (normalize_path (Str.lower path)) = Str.lower (normalize_path path).
Proof. by rewrite <- lower_normalize_path, lower_idem. Qed.

Lemma classifier_key_normalize path :
  Str.lower (normalize_path (normalize_path path))
  = Str.lower (normalize_path path).
Proof. by rewrite (proj1 (normalize_path_fixed path)). Qed.

(** X2: each of the six path predicates gives the same answer on a path, on
    its lower-cased form and on its normalized form: letter case, the kind
    of slash and white space around the path play no role. *)
Theorem path_predicates_ignore_case_and_form :
  Forall (fun predicate : string → bool =>
            ∀ path,
              predicate (Str.lower path) = predicate path
              ∧ predicate (normalize_path path) = predicate path)
    path_predicates.
Proof.
  unfold path_predicates.
  repeat apply Forall_cons_2; [..|apply Forall_nil_2]; intros path;
    unfold is_docs, is_test, is_ci, is_build, is_style, is_perf;
    by rewrite classifier_key_lower, classifier_key_normalize.
Qed.

End PathFacts.

(** * The sum of the change counts *)

Section CountSum.

Implicit Types (changes : list Change).

Lemma bucket_of_cases status :
  bucket_of status = "A" ∨ bucket_of status = "M"
  ∨ bucket_of status = "D" ∨ bucket_of status = "R".
Proof.
  unfold bucket_of. case_bool_decide as Hin; [|case_bool_decide; auto].
  rewrite !elem_of_cons, elem_of_nil in Hin. intuition.
Qed.

Lemma tally_buckets_sum changes :
  tally (fun change => bucket_of change.(status) = "A") changes
  + tally (fun change => bucket_of change.(status) = "M") changes
  + tally (fun change => bucket_of change.(status) = "D") changes
  + tally (fun change => bucket_of change.(status) = "R") changes
  = Z.of_nat (length changes).
Proof.
  unfold tally. induction changes as [|change changes IH]; [done|].
  rewrite !filter_cons. cbn [length].
  destruct (bucket_of_cases change.(status)) as [E|[E|[E|E]]]; rewrite E;
    repeat case_decide; try done; cbn [length]; lia.
Qed.

(** X3: every change is counted once: the four counts are not negative and
    their sum is the number of changes. *)
Theorem count_changes_sum changes :
  ∃ a m d r,
    count_changes changes !! "A" = Some a
    ∧ count_changes changes !! "M" = Some m
    ∧ count_changes changes !! "D" = Some d
    ∧ count_changes changes !! "R" = Some r
    ∧ 0 ≤ a ∧ 0 ≤ m ∧ 0 ≤ d ∧ 0 ≤ r
    ∧ a + m + d + r = Z.of_nat (length changes).
Proof.
  eexists _, _, _, _.
  repeat (split; [apply count_changes_lookup; in_list|]).
  repeat (split; [unfold tally; lia|]).
  apply tally_buckets_sum.
Qed.

End CountSum.

(** * The shape and the fixed points of sanitization *)

Section ShapeFacts.

Implicit Types (s : string) (p : ascii → bool).

Lemma last_char_endswith s c :
  last_char s = Some c → Str.endswith s (String c "") = true.
Proof.
  intros Hlast. destruct s as [|a s]; [done|].
  unfold Str.endswith, String.rev.
  destruct (rev_app_last (String a s) "") as (d & t & Hd & ->); [done|].
  rewrite Hlast in Hd. injection Hd as <-. cbn [String.rev_app].
  rewrite prefix_cons, bool_decide_eq_true_2 by done. by destruct t.
Qed.

Lemma lstrip_by_first_kept p c s :
  p c = false → Str.lstrip_by p (String c s) = String c s.
Proof. intros Hc. simpl. by rewrite Hc. Qed.

Lemma rstrip_by_last_kept p s c :
  last_char s = Some c → p c = false → Str.rstrip_by p s = s.
Proof.
  induction s as [|a s IH]; [done|]. intros Hlast Hc.
  destruct s as [|b s].
  - simpl in *. injection Hlast as ->. by rewrite Hc.
  - rewrite last_char_cons in Hlast by done.
    change (Str.rstrip_by p (String a (String b s)))
      with (match Str.rstrip_by p (String b s) with
            | EmptyString => if p a then EmptyString else String a EmptyString
            | r => String a r
            end).
    by rewrite (IH Hlast Hc).
Qed.

Lemma last_char_is_Some s : s ≠ "" → ∃ c, last_char s = Some c.
Proof.
  destruct s as [|a s]; [done|]. intros _.
  destruct (rev_app_last (String a s) "") as (d & _ & Hd & _); [done|].
  by exists d.
Qed.

Lemma scope_shape_sanitized s : scope_shape s ↔ sanitized s.
Proof.
  split.
  - intros (Hne & Hclean & Hs1 & Hs2 & He1 & He2). split; [done|]. split; [done|].
    split.
    + destruct s as [|c s]; [done|]. apply lstrip_by_first_kept.
      rewrite !startswith_char in Hs1, Hs2.
      apply bool_decide_eq_false in Hs1, Hs2. unfold is_edge_char. simpl.
      rewrite !bool_decide_eq_false_2; [done|congruence..].
    + destruct (last_char_is_Some s Hne) as [c Hc].
      apply (rstrip_by_last_kept _ _ c); [done|].
      destruct (is_edge_char c) eqn:Hedge; [|done].
      unfold is_edge_char in Hedge. simpl in Hedge.
      apply last_char_endswith in Hc.
      rewrite orb_false_r in Hedge.
      apply orb_prop in Hedge as [E|E]; apply bool_decide_eq_true in E;
        subst c; congruence.
  - intros Hs. destruct (sanitized_edges s Hs) as (? & ? & ? & ?).
    destruct Hs as (? & ? & _). by repeat split.
Qed.

(** X4: whatever the input, the sanitized scope is not empty, is made of
    a-z, 0-9, dot, underscore and hyphen, and has no hyphen and no dot at
    either end; the strings that sanitization leaves unchanged are exactly
    the strings of that shape. *)
Theorem sanitize_scope_shape s :
  scope_shape (sanitize_scope s)
  ∧ (sanitize_scope s = s ↔ scope_shape s).
Proof.
  split; [apply scope_shape_sanitized, sanitize_scope_sanitized|].
  rewrite scope_shape_sanitized. split.
  - intros <-. apply sanitize_scope_sanitized.
  - apply sanitized_fixed.
Qed.

End ShapeFacts.

(** * The type is in the taxonomy *)

Section TaxonomyFacts.

Implicit Types (paths : list string) (diff_text : string)
  (counts : gmap string Z).

(** X5: [infer_type] returns one of the eleven types of the taxonomy; the
    only way it fails is a [KeyError] for the key ["A"], when that key is
    not in the counts and no earlier rule has decided. *)
Theorem infer_type_in_taxonomy paths diff_text counts :
  (∃ commit_type,
     infer_type paths diff_text counts = Return commit_type
     ∧ commit_type ∈ ALLOWED_TYPES)
  ∨ (infer_type paths diff_text counts = Raise (KeyError "A")
     ∧ counts !! "A" = None).
Proof.
  unfold infer_type, dict_item.
  repeat match goal with
         | |- context [if ?b then _ else _] =>
             destruct b; try (left; eexists; split; [reflexivity|compute_done])
         end.
  destruct (counts !! "A") as [added|]; [|by right].
  cbn. destruct (0 <? added); left; eexists; (split; [reflexivity|compute_done]).
Qed.

End TaxonomyFacts.

(** * The scope as a function of the topics *)

Section TopicFacts.

Implicit Types (paths topics : list string) (commit_type : string).

Lemma sorted_topics_elem topics x :
  x ∈ merge_sort (≤)%string (elements (list_to_set topics : gset string))
  ↔ x ∈ topics.
Proof.
  rewrite merge_sort_Permutation, elem_of_elements. apply elem_of_list_to_set.
Qed.

(** X6: for a type other than ci, docs and build and a non-empty list of
    paths, the scope is [repo] when no path has a topic, the sanitized topic
    when all topics are the same one, and [multi] as soon as two paths have
    different topics. *)
Theorem infer_scope_by_topics paths commit_type :
  paths ≠ [] → commit_type ∉ ["ci"; "docs"; "build"] →
  (omap path_topic paths = [] → infer_scope paths commit_type = "repo")
  ∧ (∀ topic,
       omap path_topic paths ≠ [] →
       (∀ x, x ∈ omap path_topic paths → x = topic) →
       infer_scope paths commit_type = sanitize_scope topic)
  ∧ (∀ topic topic',
       topic ∈ omap path_topic paths → topic' ∈ omap path_topic paths →
       topic ≠ topic' → infer_scope paths commit_type = "multi").
Proof.
  intros Hne Htype. rewrite !not_elem_of_cons in Htype.
  destruct Htype as (Hci & Hdocs & Hbuild & _).
  rewrite infer_scope_topics by done.
  pose proof (sorted_topics_elem (omap path_topic paths)) as Helem.
  assert (NoDup (merge_sort (≤)%string
                   (elements (list_to_set (omap path_topic paths) : gset string))))
    as Hnodup by (rewrite merge_sort_Permutation; apply NoDup_elements).
  destruct (merge_sort _ _) as [|unique0 [|unique1 unique]].
  - split; [done|]. split.
    + intros topic Hsome _. destruct (omap path_topic paths) as [|x ?]; [done|].
      exfalso. apply (elem_of_nil x), Helem. left.
    + intros topic topic' Hin _ _. exfalso. by apply (elem_of_nil topic), Helem.
  - split; [|split].
    + intros Hnil. rewrite Hnil in Helem. exfalso.
      apply (elem_of_nil unique0), Helem. left.
    + intros topic _ Hall. f_equal. apply Hall, Helem. left.
    + intros topic topic' Hin Hin' Hdiff.
      apply Helem, list_elem_of_singleton in Hin, Hin'. congruence.
  - split; [|split; [|done]].
    + intros Hnil. rewrite Hnil in Helem. exfalso.
      apply (elem_of_nil unique0), Helem. left.
    + intros topic _ Hall. exfalso.
      assert (unique0 = topic) as -> by (apply Hall, Helem; left).
      assert (unique1 = topic) as -> by (apply Hall, Helem; right; left).
      apply NoDup_cons in Hnodup as [Hnotin _]. apply Hnotin. left.
Qed.

(** The instance of X6 at two paths under different top directories. *)
Lemma infer_scope_by_topics_witness :
  ["a/x.ts"; "b/y.ts"] ≠ [] ∧ ("feat" ∉ ["ci"; "docs"; "build"])
  ∧ (omap path_topic ["a/x.ts"; "b/y.ts"] = [] →
     infer_scope ["a/x.ts"; "b/y.ts"] "feat" = "repo")
  ∧ (∀ topic,
       omap path_topic ["a/x.ts"; "b/y.ts"] ≠ [] →
       (∀ x, x ∈ omap path_topic ["a/x.ts"; "b/y.ts"] → x = topic) →
       infer_scope ["a/x.ts"; "b/y.ts"] "feat" = sanitize_scope topic)
  ∧ (∀ topic topic',
       topic ∈ omap path_topic ["a/x.ts"; "b/y.ts"] →
       topic' ∈ omap path_topic ["a/x.ts"; "b/y.ts"] →
       topic ≠ topic' → infer_scope ["a/x.ts"; "b/y.ts"] "feat" = "multi").
Proof.
  assert ("feat" ∉ ["ci"; "docs"; "build"]) as Htype.
  { rewrite !not_elem_of_cons. repeat split; (discriminate || apply not_elem_of_nil). }
  split; [discriminate|]. split; [exact Htype|].
  apply (infer_scope_by_topics ["a/x.ts"; "b/y.ts"] "feat"); [discriminate|exact Htype].
Defined.

End TopicFacts.

(** * What the content signal is made of *)

Section SignalFacts.

Implicit Types (diff_text sub line : string).






End SignalFacts.

(** * What the parser returns *)

Section ParserInvariants.

Implicit Types (line raw : string) (changes : list Change).










End ParserInvariants.

(** * Validation of the remote reply, in full *)

Section ValidationFacts.

Variable json_loads : string → string + json.
Variable py_str : json → string.

Implicit Types (raw : string) (fields : gmap string json).

Lemma json_get_object data key fallback value :
  json_get data key fallback = Return value →
  ∃ fields, data = JObject fields ∧ value = default fallback (fields !! key).
Proof. destruct data; try done. intros [= <-]. by eexists. Qed.

Lemma normalize_ai_result_spec raw :
  match json_loads raw with
  | inl exc =>
      normalize_ai_result json_loads py_str raw
      = Raise (RuntimeError ("AI returned non-JSON content: " +:+ exc))
  | inr (JObject fields) =>
      let field key := py_str (default (JString "") (fields !! key)) in
      let commit_type := Str.lower (Str.strip (field "type")) in
      let scope := sanitize_scope (Str.or_else (Str.strip (field "scope")) "repo") in
      let theme := Str.strip (field "theme") in
      let intro := Str.strip (field "intro") in
      if bool_decide (commit_type ∈ ALLOWED_TYPES ∧ theme ≠ "" ∧ intro ≠ "")
      then normalize_ai_result json_loads py_str raw
           = Return (commit_type, scope, theme, intro)
      else ∃ msg,
          normalize_ai_result json_loads py_str raw = Raise (RuntimeError msg)
  | inr _ => normalize_ai_result json_loads py_str raw = Raise AttributeError
  end.
Proof.
  unfold normalize_ai_result. destruct (json_loads raw) as [exc|data]; [done|].
  destruct data; try done.
  cbn [json_get mbind result_bind]. unfold Str.truthy.
  repeat case_bool_decide; simpl; try (by eexists); try done; tauto.
Qed.


Lemma normalize_ai_result_return raw commit_type scope theme intro :
  normalize_ai_result json_loads py_str raw
  = Return (commit_type, scope, theme, intro) →
  commit_type ∈ ALLOWED_TYPES
  ∧ scope_shape scope
  ∧ theme ≠ "" ∧ intro ≠ ""
  ∧ Str.strip theme = theme ∧ Str.strip intro = intro.
Proof.
  pose proof (normalize_ai_result_spec raw) as Hcases.
  destruct (json_loads raw) as [exc|data]; [by rewrite Hcases|].
  destruct data; try (by rewrite Hcases).
  cbv beta zeta in Hcases. revert Hcases. case_bool_decide as Hok; intros Hcases.
  - rewrite Hcases. intros [= <- <- <- <-].
    destruct Hok as (Htype & Htheme & Hintro).
    repeat split; try done;
      try (apply scope_shape_sanitized, sanitize_scope_sanitized);
      apply strip_by_idem.
  - destruct Hcases as [msg ->]. done.
Qed.

(** X12: a reply that the validation accepts is well formed: the type is in
    the taxonomy, the scope has the shape of a sanitized scope, the theme and
    the intro are not empty and have no white space at either end. *)
Theorem normalize_ai_result_accepted raw commit_type scope theme intro :
  normalize_ai_result json_loads py_str raw
  = Return (commit_type, scope, theme, intro) →
  commit_type ∈ ALLOWED_TYPES
  ∧ scope_shape scope
  ∧ theme ≠ "" ∧ intro ≠ ""
  ∧ Str.strip theme = theme ∧ Str.strip intro = intro.
Proof. apply normalize_ai_result_return. Qed.

End ValidationFacts.

(** The instance of X12 at the sample object reply. *)
Lemma normalize_ai_result_accepted_witness :
  normalize_ai_result sample_object_loads sample_str sample_object_reply
  = Return ("fix", "api-v2", "guard the handler", "adds a null check")
  ∧ "fix" ∈ ALLOWED_TYPES
  ∧ scope_shape "api-v2"
  ∧ "guard the handler" ≠ "" ∧ "adds a null check" ≠ ""
  ∧ Str.strip "guard the handler" = "guard the handler"
  ∧ Str.strip "adds a null check" = "adds a null check".
Proof.
  split; [vm_compute; reflexivity|].
  apply (normalize_ai_result_accepted sample_object_loads sample_str
           sample_object_reply).
  vm_compute. reflexivity.
Defined.

(** * The decisions of [run] *)

Section RunFacts.

Variable json_loads : string → string + json.
Variable py_str : json → string.

Implicit Types (args : Args) (staged_changes : list Change)
  (diff_text : string) (ai_reply : result string).

Lemma str_app_not_empty s t : s ≠ "" → s +:+ t ≠ "".
Proof. by destruct s. Qed.

Lemma override_or_not_empty (o : option string) (computed : result string) s :
  (∀ s', computed = Return s' → s' ≠ "") →
  override_or o computed = Return s → s ≠ "".
Proof.
  intros Hcomputed. unfold override_or. destruct o as [v|]; [|by auto].
  unfold Str.truthy. case_bool_decide; simpl; [by auto|]. by intros [= <-].
Qed.

Lemma infer_theme_not_empty scope counts commit_type theme :
  infer_theme scope counts commit_type = Return theme → theme ≠ "".
Proof.
  unfold infer_theme.
  repeat match goal with
         | |- context [if ?b then _ else _] => destruct b
         | |- context [mbind _ ?r] => destruct r; cbn [mbind result_bind]
         end; try done; by intros [= <-].
Qed.

Lemma infer_intro_not_empty scope counts paths max_files intro :
  infer_intro scope counts paths max_files = Return intro → intro ≠ "".
Proof.
  unfold infer_intro.
  repeat match goal with
         | |- context [mbind _ ?r] => destruct r; cbn [mbind result_bind]
         end; try done; by intros [= <-].
Qed.

(** The local description: a sanitized scope and a theme and an intro that
    are not empty. *)
Lemma local_description_well_formed args paths diff_text counts
  local_type local_scope local_theme local_intro :
  local_description args paths diff_text counts
  = Return (local_type, local_scope, local_theme, local_intro) →
  scope_shape local_scope ∧ local_theme ≠ "" ∧ local_intro ≠ "".
Proof.
  unfold local_description.
  destruct (override_or args.(type_override) _) as [t|]; [|done].
  cbn [mbind result_bind].
  set (scope := match args.(scope_override) with
                | Some s => _
                | None => _
                end).
  assert (scope_shape scope) as Hscope.
  { subst scope. apply scope_shape_sanitized.
    destruct args.(scope_override) as [s|];
      [destruct (Str.truthy s)|];
      (apply sanitize_scope_sanitized || apply infer_scope_sanitized). }
  destruct (override_or args.(theme_override) _) as [th|] eqn:Hth; [|done].
  cbn [mbind result_bind].
  destruct (override_or args.(intro_override) _) as [i|] eqn:Hi; [|done].
  cbn [mbind result_bind]. intros [= <- <- <- <-].
  split; [done|]. split.
  - eapply override_or_not_empty; [|exact Hth]. apply infer_theme_not_empty.
  - eapply override_or_not_empty; [|exact Hi]. apply infer_intro_not_empty.
Qed.

Lemma clamp_type_in_taxonomy commit_type : clamp_type commit_type ∈ ALLOWED_TYPES.
Proof.
  unfold clamp_type. case_bool_decide; simpl; [done|compute_done].
Qed.

(** X13: every description that [run] produces, from the local rules or from
    the remote reply, has a type of the taxonomy, a scope of the sanitized
    shape, and a theme and an intro that are not empty. *)
Theorem run_description_well_formed args staged_changes diff_text ai_reply
  commit_type scope theme intro ai_used :
  run json_loads py_str args staged_changes diff_text ai_reply
  = Described commit_type scope theme intro ai_used →
  commit_type ∈ ALLOWED_TYPES ∧ scope_shape scope ∧ theme ≠ "" ∧ intro ≠ "".
Proof.
  unfold run. destruct (_ <? 1); [done|]. case_bool_decide; [done|].
  destruct (local_description _ _ _ _) as [[[[lt ls] lth] li]|e] eqn:Hlocal;
    [|by destruct e].
  apply local_description_well_formed in Hlocal as (Hls & Hlth & Hli).
  assert (∀ t s th i u,
            Described (clamp_type lt) ls lth li false = Described t s th i u →
            t ∈ ALLOWED_TYPES ∧ scope_shape s ∧ th ≠ "" ∧ i ≠ "") as Hlocal.
  { intros t s th i u [= <- <- <- <- <-].
    split; [apply clamp_type_in_taxonomy|done]. }
  destruct (_ && _); [|by apply Hlocal].
  destruct (mbind _ ai_reply) as [[[[rt rs] rth] ri]|e] eqn:Hremote.
  - intros [= <- <- <- <- <-].
    destruct ai_reply as [ai_raw|e]; [|done]. cbn [mbind result_bind] in Hremote.
    apply normalize_ai_result_return in Hremote as (_ & ? & ? & ? & _).
    split; [apply clamp_type_in_taxonomy|done].
  - destruct e; try done. destruct args.(ai_required); [done|]. by apply Hlocal.
Qed.

(** X14: with remote generation switched off, or with any of the four
    fields given on the command line, [run] does not depend on what the
    remote call would do. *)
Theorem run_without_remote args staged_changes diff_text ai_reply ai_reply' :
  args.(no_ai) = true
  ∨ given args.(type_override) = true ∨ given args.(scope_override) = true
  ∨ given args.(theme_override) = true ∨ given args.(intro_override) = true →
  run json_loads py_str args staged_changes diff_text ai_reply
  = run json_loads py_str args staged_changes diff_text ai_reply'.
Proof.
  intros Hoff. unfold run.
  assert (negb args.(no_ai)
          && negb (given args.(type_override) || given args.(scope_override)
                   || given args.(theme_override) || given args.(intro_override))
          = false) as ->; [|done].
  destruct Hoff as [->|[->|[->|[->| ->]]]]; simpl;
    rewrite ?orb_true_r, ?andb_false_r; done.
Qed.

(** X15: when the remote call is tried, [run] takes all four fields from
    an accepted reply; on a [RuntimeError] of the call or of the validation
    it stops with code 2 under [--ai-required] and otherwise takes all four
    fields from the local rules; any other exception leaves [run]. *)
Theorem run_remote_decision args staged_changes diff_text ai_reply :
  1 ≤ args.(max_files) → staged_changes ≠ [] → args.(no_ai) = false →
  given args.(type_override) = false → given args.(scope_override) = false →
  given args.(theme_override) = false → given args.(intro_override) = false →
  ∃ local_type local_scope local_theme local_intro,
    local_description args (map path staged_changes) diff_text
      (count_changes staged_changes)
    = Return (local_type, local_scope, local_theme, local_intro)
    ∧ run json_loads py_str args staged_changes diff_text ai_reply
      = match ai_raw ← ai_reply; normalize_ai_result json_loads py_str ai_raw with
        | Return (commit_type, scope, theme, intro) =>
            Described commit_type scope theme intro true
        | Raise (RuntimeError _) =>
            if args.(ai_required) then Exit 2
            else Described local_type local_scope local_theme local_intro false
        | Raise e => Uncaught e
        end.
Proof.
  intros Hmax Hne Hai Ht Hs Hth Hi.
  destruct (local_description_total args (map path staged_changes) diff_text
              (count_changes staged_changes))
    as (lt & ls & lth & li & Hlocal & Hallowed);
    [apply count_changes_has_buckets|].
  exists lt, ls, lth, li. split; [done|]. unfold run.
  rewrite (proj2 (Z.ltb_ge _ _)) by lia.
  rewrite bool_decide_eq_false_2 by done.
  rewrite Hlocal, Hai, Ht, Hs, Hth, Hi. cbn [negb orb andb].
  destruct (mbind _ ai_reply) as [[[[rt rs] rth] ri]|e] eqn:Hremote.
  - destruct ai_reply as [ai_raw|e]; [|done]. cbn [mbind result_bind] in Hremote.
    apply normalize_ai_result_return in Hremote as (Hrt & _).
    by rewrite clamp_type_allowed.
  - destruct e; try done. by rewrite clamp_type_allowed by auto.
Qed.


End RunFacts.

(** The instance of X13 at the sample object reply. *)
Lemma run_description_well_formed_witness :
  run sample_object_loads sample_str default_args
    [mkChange "M" "src/server/handler.go" None] "+fix null pointer"
    (Return sample_object_reply)
  = Described "fix" "api-v2" "guard the handler" "adds a null check" true
  ∧ "fix" ∈ ALLOWED_TYPES ∧ scope_shape "api-v2"
  ∧ "guard the handler" ≠ "" ∧ "adds a null check" ≠ "".
Proof.
  split; [vm_compute; reflexivity|].
  apply (run_description_well_formed sample_object_loads sample_str default_args
           [mkChange "M" "src/server/handler.go" None] "+fix null pointer"
           (Return sample_object_reply) _ _ _ _ true).
  vm_compute. reflexivity.
Defined.

(** The instance of X14 with [--no-ai]. *)
Lemma run_without_remote_witness :
  (no_ai (mkArgs None None None None 5 true false) = true
   ∨ given (type_override (mkArgs None None None None 5 true false)) = true
   ∨ given (scope_override (mkArgs None None None None 5 true false)) = true
   ∨ given (theme_override (mkArgs None None None None 5 true false)) = true
   ∨ given (intro_override (mkArgs None None None None 5 true false)) = true)
  ∧ run sample_object_loads sample_str (mkArgs None None None None 5 true false)
      [mkChange "A" "docs/readme.md" None] "" (Return sample_object_reply)
    = run sample_object_loads sample_str (mkArgs None None None None 5 true false)
        [mkChange "A" "docs/readme.md" None] "" (Raise AttributeError).
Proof.
  split; [by left|].
  apply (run_without_remote sample_object_loads sample_str
           (mkArgs None None None None 5 true false)).
  by left.
Defined.

(** The instance of X15 at a reply that is not JSON. *)
Lemma run_remote_decision_witness :
  1 ≤ max_files default_args
  ∧ [mkChange "A" "docs/readme.md" None] ≠ []
  ∧ ∃ local_type local_scope local_theme local_intro,
      local_description default_args (map path [mkChange "A" "docs/readme.md" None])
        "" (count_changes [mkChange "A" "docs/readme.md" None])
      = Return (local_type, local_scope, local_theme, local_intro)
      ∧ run sample_object_loads sample_str default_args
          [mkChange "A" "docs/readme.md" None] "" (Return "not json")
        = match ai_raw ← Return "not json";
                normalize_ai_result sample_object_loads sample_str ai_raw with
          | Return (commit_type, scope, theme, intro) =>
              Described commit_type scope theme intro true
          | Raise (RuntimeError _) =>
              if ai_required default_args then Exit 2
              else Described local_type local_scope local_theme local_intro false
          | Raise e => Uncaught e
          end.
Proof.
  split; [vm_compute; discriminate|]. split; [discriminate|].
  apply (run_remote_decision sample_object_loads sample_str default_args
           [mkChange "A" "docs/readme.md" None] "" (Return "not json"));
    [vm_compute; discriminate | discriminate | reflexivity..].
Defined.


(** * The lines of the commit body *)

Section BodyFacts.

Implicit Types (line rest : string) (lines : list string).

Lemma splitlines_line_feed line rest :
  Str.all_chars not_linebreak line = true →
  Str.splitlines (line +:+ String "010" rest) = line :: Str.splitlines rest.
Proof.
  induction line as [|c line IH].
  - intros _. rewrite str_app_nil_l. cbn [Str.splitlines].
    change (Str.is_linebreak "010") with true. by destruct rest.
  - cbn [Str.all_chars]. intros [Hc Hline]%andb_prop.
    rewrite str_app_cons. cbn [Str.splitlines].
    unfold not_linebreak in Hc. apply negb_true_iff in Hc. rewrite Hc.
    by rewrite (IH Hline).
Qed.

Lemma splitlines_one_line line :
  line ≠ "" → Str.all_chars not_linebreak line = true →
  Str.splitlines line = [line].
Proof.
  induction line as [|c line IH]; [done|]. intros _.
  cbn [Str.all_chars]. intros [Hc Hline]%andb_prop.
  cbn [Str.splitlines].
  unfold not_linebreak in Hc. apply negb_true_iff in Hc. rewrite Hc.
  destruct line as [|d line]; [done|]. by rewrite IH.
Qed.

(** Joining lines with line feeds and splitting the text again gives the
    lines back, when no line is empty or contains a line boundary. *)
Lemma splitlines_join lines :
  Forall (fun line => line ≠ "" ∧ Str.all_chars not_linebreak line = true) lines →
  Str.splitlines (Str.join LF lines) = lines.
Proof.
  unfold Str.join, LF.
  induction lines as [|line [|line' lines] IH]; [done|..].
  - intros [[Hne Hline] _]%Forall_cons_1. by apply splitlines_one_line.
  - intros [[Hne Hline] Hrest]%Forall_cons_1.
    change (String.concat (String "010" "") (line :: line' :: lines))
      with (line +:+ String "010" (String.concat (String "010" "") (line' :: lines))).
    rewrite splitlines_line_feed by done. by rewrite IH.
Qed.

(** X17: the commit body is four lines, one a field, in the order type,
    scope, theme, intro and each after its label, whenever no field contains
    a line boundary: splitting the body into lines gives the four labelled
    fields back. *)
Theorem build_body_lines commit_type scope theme intro :
  Str.all_chars not_linebreak commit_type = true →
  Str.all_chars not_linebreak scope = true →
  Str.all_chars not_linebreak theme = true →
  Str.all_chars not_linebreak intro = true →
  Str.splitlines (build_body commit_type scope theme intro)
  = ["类型: " +:+ commit_type; "作用域: " +:+ scope; "主题: " +:+ theme;
     "简介: " +:+ intro].
Proof.
  intros Ht Hs Hth Hi. unfold build_body. apply splitlines_join.
  repeat apply Forall_cons_2; [..|apply Forall_nil_2];
    (split; [done|]); rewrite all_chars_app;
    apply andb_true_intro; (split; [vm_compute; reflexivity|done]).
Qed.

(** The instance of X17 at a description of a fix. *)
Lemma build_body_lines_witness :
  Str.all_chars not_linebreak "fix" = true
  ∧ Str.all_chars not_linebreak "src" = true
  ∧ Str.all_chars not_linebreak "完善src相关实现" = true
  ∧ Str.all_chars not_linebreak "changes one file" = true
  ∧ Str.splitlines (build_body "fix" "src" "完善src相关实现" "changes one file")
    = ["类型: " +:+ "fix"; "作用域: " +:+ "src"; "主题: " +:+ "完善src相关实现";
       "简介: " +:+ "changes one file"].
Proof.
  repeat (split; [vm_compute; reflexivity|]).
  apply (build_body_lines "fix" "src" "完善src相关实现" "changes one file");
    vm_compute; reflexivity.
Defined.

End BodyFacts.

(** * The keyword rules of type inference *)

Section KeywordFacts.

Implicit Types (paths : list string) (diff_text : string)
  (counts : gmap string Z).




End KeywordFacts.

(** * The segments of a path *)

Section SegmentFacts.

Implicit Types (s path : string) (p : ascii → bool).

Lemma split_pieces_all_chars p sep s :
  Str.all_chars p s = true →
  Forall (fun piece => Str.all_chars p piece = true) (Str.split sep s).
Proof.
  induction s as [|c s IH]; [by repeat constructor|].
  cbn [Str.all_chars Str.split]. intros [Hc Hs]%andb_prop. specialize (IH Hs).
  case_bool_decide; [by constructor|].
  destruct (Str.split sep s) as [|piece pieces]; [by repeat constructor; simpl; rewrite Hc|].
  apply Forall_cons_1 in IH as [Hpiece Hpieces].
  constructor; [|done]. simpl. by rewrite Hc, Hpiece.
Qed.

Lemma split_pieces_no_sep sep s :
  Forall (fun piece => Str.mem_char sep piece = false) (Str.split sep s).
Proof.
  induction s as [|c s IH]; [by repeat constructor|].
  cbn [Str.split]. case_bool_decide as Hc; [by constructor|].
  destruct (Str.split sep s) as [|piece pieces].
  - repeat constructor. simpl. rewrite orb_false_r.
    apply bool_decide_eq_false_2. congruence.
  - apply Forall_cons_1 in IH as [Hpiece Hpieces].
    constructor; [|done]. simpl. rewrite Hpiece, orb_false_r.
    apply bool_decide_eq_false_2. congruence.
Qed.

(** X19: the segments of a path are not empty and contain neither a slash
    nor a backslash. *)
Theorem split_path_segments path :
  Forall (fun part =>
            part ≠ ""
            ∧ Str.mem_char "/" part = false
            ∧ Str.all_chars (fun c => negb (bool_decide (c = "092"%char))) part
              = true)
    (split_path path).
Proof.
  unfold split_path. apply Forall_forall. intros part Hpart.
  apply list_elem_of_filter in Hpart as [Htruthy Hpart].
  split; [|split].
  - unfold Str.truthy in Htruthy. apply negb_true_iff in Htruthy.
    by apply bool_decide_eq_false in Htruthy.
  - pose proof (split_pieces_no_sep "/" (normalize_path path)) as Hall.
    rewrite Forall_forall in Hall. by apply Hall.
  - pose proof (split_pieces_all_chars
                  (fun c => negb (bool_decide (c = "092"%char))) "/"
                  (normalize_path path)) as Hall.
    rewrite Forall_forall in Hall. apply Hall; [|done].
    apply normalize_path_fixed.
Qed.

End SegmentFacts.

(** * Worked examples

    The embedding evaluated on concrete inputs, with the values that Python
    gives for them. *)

Example splitlines_sample :
  Str.splitlines
    ("ab" +:+ LF +:+ "c" +:+ String "013" LF +:+ LF +:+ "d" +:+ LF)
  = ["ab"; "c"; ""; "d"].
Proof. reflexivity. Qed.

Example split_sample : Str.split "/" "a//b/" = ["a"; ""; "b"; ""].
Proof. reflexivity. Qed.

Example strip_sample :
  Str.strip "  a b  " = "a b" ∧ Str.strip_chars "-." "-.a-.b.-" = "a-.b".
Proof. split; reflexivity. Qed.

Example lower_sample : Str.lower "AbC-Z[@" = "abc-z[@".
Proof. reflexivity. Qed.

Example contains_sample :
  Str.endswith "foo_test.py" "_test.py" = true
  ∧ Str.contains "bc" "abcd" = true
  ∧ Str.contains "bd" "abcd" = false.
Proof. repeat split; reflexivity. Qed.

Example slice_to_sample :
  slice_to [1; 2; 3] (-1) = [1; 2]
  ∧ slice_to [1; 2; 3] 5 = [1; 2; 3]
  ∧ slice_to [1; 2; 3] 0 = [].
Proof. repeat split; reflexivity. Qed.

Example path_name_sample :
  map path_name ["a/./b"; "a/."; "."; ""; "/"; "a/b/"; "a/.."; "x/.gitignore"]
  = ["b"; "a"; ""; ""; ""; "b"; ".."; ".gitignore"].
Proof. reflexivity. Qed.

Example path_suffix_sample :
  map path_suffix ["..md"; ".md"; "a..md"; "a."; "a.b."; "a.TXT"; "d/x.tar.gz"]
  = [".md"; ""; ".md"; ""; ""; ".TXT"; ".gz"].
Proof. reflexivity. Qed.

Example classifier_sample :
  map is_docs ["docs/readme.md"; "src/a.py"; "README.MD"; "doc/x.py"]
  = [true; false; true; true]
  ∧ map is_test ["tests/a.py"; "src/test_x.py"; "a/foo.spec.ts"; "a/b.py"]
    = [true; true; true; false]
  ∧ map is_ci [".github/workflows/a.yml"; "x/Jenkinsfile"; "a.py"]
    = [true; true; false]
  ∧ map is_build ["Makefile"; "x/build/y"; "vite.config.ts"; "a.py"]
    = [true; true; true; false]
  ∧ map is_style ["a.css"; ".eslintrc"; "a.py"] = [true; true; false].
Proof. repeat split; vm_compute; reflexivity. Qed.

Example first_category_sample :
  first_category ["docs/guide.md"; "README.md"] = Some "docs"
  ∧ first_category ["docs/guide.md"; "src/a.py"] = None
  ∧ first_category ["tests/readme.md"] = Some "docs"
  ∧ first_category ["tests/a.py"; "tests/b.md"] = Some "test".
Proof. vm_compute. repeat split; reflexivity. Qed.

(** A modified file, a rename, a blank line and a line with one field. *)
Example parse_name_status_sample :
  parse_name_status
    ("M" +:+ String TAB "src/a.py" +:+ LF
     +:+ "R100" +:+ String TAB "old.py" +:+ String TAB "new.py" +:+ LF
     +:+ LF +:+ "junk" +:+ LF)
  = Return [mkChange "M" "src/a.py" None; mkChange "R" "new.py" (Some "old.py")].
Proof. vm_compute. reflexivity. Qed.

Example count_changes_sample :
  map_to_list
    (count_changes [mkChange "C" "a" None; mkChange "X" "a" None;
                    mkChange "D" "a" None])
  = [("M", 1); ("A", 1); ("R", 0); ("D", 1)].
Proof. vm_compute. reflexivity. Qed.

Example sanitize_scope_sample :
  map sanitize_scope ["My Scope!!"; "..hidden"; "--"; "a  b__c"; "API/v2"; ""]
  = ["my-scope"; "hidden"; "repo"; "a-b__c"; "api-v2"; "repo"].
Proof. vm_compute. reflexivity. Qed.

Example infer_scope_loop_sample :
  fold_left infer_scope_step ["..hidden/x"; "../x/y"; "a"; "x/readme.md"] (0, [])
  = (2, ["hidden"; ".."]).
Proof. vm_compute. reflexivity. Qed.

Example infer_scope_sample :
  infer_scope ["..hidden/x"] "fix" = "hidden"
  ∧ infer_scope ["../x/y"] "fix" = "repo"
  ∧ infer_scope [".github/x/y"; "README.md"; "github/z"] "chore" = "github".
Proof. vm_compute. repeat split; reflexivity. Qed.

Example infer_theme_sample :
  infer_theme "src" (count_changes [mkChange "A" "a/b" None]) "feat"
  = Return "新增src相关内容".
Proof. vm_compute. reflexivity. Qed.

Example infer_intro_sample :
  infer_intro "src"
    (count_changes [mkChange "A" "a/b" None; mkChange "M" "c" None;
                    mkChange "M" "d" None])
    ["a/b"; "c"; "d"] 2
  = Return "对3个文件进行了变更（新增1、修改2、删除0、重命名0），主要集中在src范围，涉及a/b，c 等3个文件。".
Proof. vm_compute. reflexivity. Qed.

(** The end-to-end examples of the specification. *)
Example end_to_end_docs :
  infer_type ["docs/readme.md"] "" (count_changes [mkChange "A" "docs/readme.md" None])
  = Return "docs"
  ∧ infer_scope ["docs/readme.md"] "docs" = "docs".
Proof. vm_compute. split; reflexivity. Qed.

Example end_to_end_fix :
  infer_type ["src/server/handler.go"] "+fix null pointer"
    (count_changes [mkChange "M" "src/server/handler.go" None])
  = Return "fix"
  ∧ infer_scope ["src/server/handler.go"] "fix" = "src".
Proof. vm_compute. split; reflexivity. Qed.

Example end_to_end_multi : infer_scope ["a/x.ts"; "b/y.ts"] "feat" = "multi".
Proof. vm_compute. reflexivity. Qed.

Example end_to_end_no_changes :
  run sample_loads sample_str default_args [] "" (Raise (RuntimeError "unused"))
  = Exit 1.
Proof. reflexivity. Qed.

(** Local rules, remote generation switched off. *)
Example run_local_sample :
  run sample_loads sample_str (mkArgs None None None None 5 true false)
    [mkChange "M" "src/server/handler.go" None] "+fix null pointer"
    (Raise (RuntimeError "unused"))
  = Described "fix" "src" "完善src相关实现"
      "对1个文件进行了变更（新增0、修改1、删除0、重命名0），主要集中在src范围，涉及src/server/handler.go。"
      false.
Proof. vm_compute. reflexivity. Qed.

(** A reply that is not JSON: the local description is used. *)
Example run_fallback_sample :
  run sample_loads sample_str default_args
    [mkChange "A" "docs/readme.md" None] "" (Return "not json")
  = Described "docs" "docs" "新增docs相关内容"
      "对1个文件进行了变更（新增1、修改0、删除0、重命名0），主要集中在docs范围，涉及docs/readme.md。"
      false.
Proof. vm_compute. reflexivity. Qed.
